(** * slush: Simple Linux UART Shell

    A shallow embedding of [slush.c] and the properties of its
    specification.  The program is a single C file: it parses its
    options, configures a serial line ([open_serial]) and then loops on
    [poll], copying console lines to the serial descriptor (with an
    optional newline remapping) and rendering what it reads from the
    serial descriptor in one of four display modes ([read_reply]).

    Conventions of the embedding:
    - a C [int], [tcflag_t], [short] or [uint64_t] is a [Z]; the
      wrap-around of the unsigned 64-bit arithmetic is written out;
    - a [char] is an [ascii] (one byte), a [char] array is a
      [list ascii] indexed from 0, text sent to a stream is a [string];
    - an access outside an array, and the use of an indeterminate
      pointer, is undefined behaviour in C: the embedding stops with
      [Undef] there rather than inventing a result;
    - the operating system is an explicit [world]: what [open] returns,
      the bytes waiting on the console, and for every turn of the loop
      what [poll], [read] and [clock_gettime] answer;
    - the calls the program makes are collected, in order, in a log of
      [effect]s. *)

From Stdlib Require Import ZArith Lia Ascii String DecimalString Sorted.
From stdpp Require Import base tactics option list strings.

Local Open Scope Z_scope.

(** ** Bytes and C strings *)

Definition NUL : ascii := "000"%char.
Definition NL : ascii := "010"%char.
Definition CR : ascii := "013"%char.

Definition nl : string := String NL "".

Definition DEVICE : string := "/dev/ttyS0".
Definition BPS : Z := 115200.
Definition BUFLEN : nat := 1024.

(** ** Undefined behaviour *)

Inductive fault :=
  | OobRead                (* a read beyond the end of an array *)
  | OobWrite (i : Z)       (* a store at index [i], outside the array *)
  | IndeterminatePointer.  (* use of a pointer that was never assigned *)

Inductive res (A : Type) :=
  | Ok (a : A)
  | Undef (f : fault).
Arguments Ok {A} a.
Arguments Undef {A} f.

#[global] Instance res_ret : MRet res := fun A a => Ok a.
#[global] Instance res_bind : MBind res := fun A B k m =>
  match m with
  | Ok a => k a
  | Undef f => Undef f
  end.

(** ** Arrays of [char] *)

(** [memset(buf, 0, n)] on a fresh array, and [char reply[n] = {0}]. *)
Definition zeroed (n : nat) : list ascii := replicate n NUL.

(** [buf[i]] as an rvalue. *)
Definition load (buf : list ascii) (i : Z) : res ascii :=
  if decide (0 <= i) then
    match buf !! Z.to_nat i with
    | Some c => Ok c
    | None => Undef OobRead
    end
  else Undef OobRead.

(** [buf[i] = c]. *)
Definition store (buf : list ascii) (i : Z) (c : ascii) : res (list ascii) :=
  if decide (0 <= i < Z.of_nat (length buf)) then Ok (<[Z.to_nat i := c]> buf)
  else Undef (OobWrite i).

(** [strlen(buf)]: the index of the first NUL; scanning past the end of
    the array is undefined. *)
Fixpoint strlen (buf : list ascii) : res Z :=
  match buf with
  | [] => Undef OobRead
  | c :: rest => if decide (c = NUL) then Ok 0 else n ← strlen rest; Ok (1 + n)
  end.

(** The bytes a [%s] conversion, or [write(fd, buf, strlen(buf))], takes
    from [buf]. *)
Definition cstring (buf : list ascii) : res (list ascii) :=
  n ← strlen buf; Ok (take (Z.to_nat n) buf).

(** [size_t] subtraction ([size_t] is the unsigned 64-bit type of the
    LP64 platforms; with 32 bits [0 - 1] is as far out of any array). *)
Definition size_sub (a b : Z) : Z := (a - b) mod 2 ^ 64.

(** ** Formatted output *)

(** [%d] *)
Definition printf_d (z : Z) : string := NilZero.string_of_int (Z.to_int z).

(** Right-justify in a field of [w] characters. *)
Definition pad_left (fill : ascii) (w : nat) (s : string) : string :=
  string_of_list_ascii (replicate (w - String.length s) fill) +:+ s.

(** [%2d] *)
Definition printf_2d (z : Z) : string := pad_left " " 2 (printf_d z).

(** [%" PRId64 "] applied to a [uint64_t]: the 64 bits are read as a
    signed number. *)
Definition printf_PRId64 (u : Z) : string :=
  printf_d (if u <? 2 ^ 63 then u else u - 2 ^ 64).

Definition hexdigit (d : Z) : ascii :=
  default "0"%char (list_ascii_of_string "0123456789abcdef" !! Z.to_nat d).

(** The digits of [n] in base 16, most significant first; [fuel] bounds
    the number of digits. *)
Fixpoint hex_digits (fuel : nat) (n : Z) (acc : string) : string :=
  match fuel with
  | O => acc
  | S fuel' =>
      let acc' := String (hexdigit (n mod 16)) acc in
      if n / 16 =? 0 then acc' else hex_digits fuel' (n / 16) acc'
  end.

(** [%02hhx]: the argument converted to [unsigned char], in lowercase
    hexadecimal, zero-padded to two characters. *)
Definition printf_02hhx (c : ascii) : string :=
  pad_left "0" 2 (hex_digits 2 (Z.of_nat (nat_of_ascii c)) "").

(** [isprint] in the "C" locale (the program never calls [setlocale]):
    the bytes from space to tilde.  A byte of 128 or more is not
    printable, whether [char] is signed or not. *)
Definition isprint (c : ascii) : bool :=
  let n := Z.of_nat (nat_of_ascii c) in (32 <=? n) && (n <=? 126).

(** [printf("%c", isprint(c) ? c : '.')] *)
Definition printable_or_dot (c : ascii) : ascii :=
  if isprint c then c else "."%char.

(** ** The platform: termios and poll constants, [atoi] *)

Class Platform := {
  O_RDWR : Z; O_NOCTTY : Z;
  IGNPAR : Z; ICRNL : Z;
  CS8 : Z; CLOCAL : Z; CREAD : Z; CRTSCTS : Z;
  ICANON : Z;
  TCIFLUSH : Z; TCSANOW : Z;
  B1200 : Z; B1800 : Z; B2400 : Z; B4800 : Z; B9600 : Z;
  B19200 : Z; B38400 : Z; B57600 : Z; B115200 : Z;
  POLLIN : Z; POLLPRI : Z; POLLERR : Z; POLLHUP : Z;
  atoi : string -> Z
}.

(** The [atoi] of glibc for the instance below, [(int) strtol(s, NULL,
    10)]: leading white space as [isspace] has it, an optional sign,
    then digits; the value saturates at the bounds of [long] and is
    then cut to the 32 bits of an [int]. *)
Definition digit_value (c : ascii) : option Z :=
  let n := Z.of_nat (nat_of_ascii c) in
  if (48 <=? n) && (n <=? 57) then Some (n - 48) else None.

Fixpoint atoi_digits (s : string) (acc : Z) : Z :=
  match s with
  | EmptyString => acc
  | String c rest =>
      match digit_value c with
      | Some d => atoi_digits rest (10 * acc + d)
      | None => acc
      end
  end.

(** [isspace] in the "C" locale: space, and the five controls from
    tab to carriage return. *)
Definition isspace (c : ascii) : bool :=
  let n := Z.of_nat (nat_of_ascii c) in
  (n =? 32) || ((9 <=? n) && (n <=? 13)).

Fixpoint atoi_blanks (s : string) : string :=
  match s with
  | String c rest => if isspace c then atoi_blanks rest else s
  | EmptyString => s
  end.

(** What [strtol] answers for a value outside [long]. *)
Definition long_of_Z (z : Z) : Z := Z.max (- 2 ^ 63) (Z.min (2 ^ 63 - 1) z).

Definition int_of_Z (z : Z) : Z := (z + 2 ^ 31) mod 2 ^ 32 - 2 ^ 31.

Definition atoi_dec (s : string) : Z :=
  int_of_Z
    (long_of_Z
       match atoi_blanks s with
       | String "-" rest => - atoi_digits rest 0
       | String "+" rest => atoi_digits rest 0
       | rest => atoi_digits rest 0
       end).

(** The values of the Linux generic headers ([asm-generic/termbits.h],
    [asm-generic/poll.h], [asm-generic/fcntl.h]). *)
Definition linux : Platform := {|
  O_RDWR := 2; O_NOCTTY := 256;
  IGNPAR := 4; ICRNL := 256;
  CS8 := 48; CLOCAL := 2048; CREAD := 128; CRTSCTS := 2147483648;
  ICANON := 2;
  TCIFLUSH := 0; TCSANOW := 0;
  B1200 := 9; B1800 := 10; B2400 := 11; B4800 := 12; B9600 := 13;
  B19200 := 14; B38400 := 15; B57600 := 4097; B115200 := 4098;
  POLLIN := 1; POLLPRI := 2; POLLERR := 8; POLLHUP := 16;
  atoi := atoi_dec
|}.

(** ** Program data *)

(** [struct termios], the fields the program sets; everything else is
    zero after the [memset]. *)
Record termios := {
  c_iflag : Z;
  c_oflag : Z;
  c_cflag : Z;
  c_lflag : Z;
  c_cc_VTIME : Z;
  c_cc_VMIN : Z
}.

(** A [char *] variable: never assigned, or pointing to a string. *)
Inductive cptr :=
  | Indeterminate
  | Ptr (s : string).

(** The file-scope flags [annotate], [debug], [trace] and the locals of
    [main] that the option loop sets. *)
Record config := {
  annotate : Z;
  debug : Z;
  trace : Z;
  bps : Z;
  icrnl : Z;
  nlmap : Z;
  hwfc : Z;
  device : cptr
}.

(** The calls the program makes, as they appear to the outside. *)
Inductive effect :=
  | SysOpen (name : string) (flags : Z)
  | SysTcflush (fd : Z) (queue : Z)
  | SysTcsetattr (fd : Z) (action : Z) (t : termios)
  | SysWrite (fd : Z) (bytes : list ascii)
  | Stdout (text : string)
  | Fflush
  | Stderr (text : string)
  | StderrErrno (text : string)   (* [text] followed by the message for [errno] *)
  | Perror (s : string).

(** One turn of the loop, as the operating system answers it. *)
Record iteration := {
  poll_ret : Z;                       (* the value of [poll] *)
  revents0 : Z;                       (* [pfd[0].revents], the console *)
  revents1 : Z;                       (* [pfd[1].revents], the serial line *)
  serial_read : option (list ascii);  (* [read]: [None] is -1, else the bytes *)
  clock : Z * Z                       (* [CLOCK_MONOTONIC]: [tv_sec], [tv_nsec] *)
}.

Record world := {
  open_ret : Z;                (* the value of [open] *)
  console : list ascii;        (* the bytes of standard input, up to end of file *)
  iterations : list iteration
}.

(** What changes while the loop runs: the unread console input, the two
    [static] variables of [trace_show_reply], and the log. *)
Record state := {
  stdin : list ascii;
  lastts : Z;
  total : Z;
  log : list effect
}.

Definition emit (s : state) (es : list effect) : state :=
  {| stdin := stdin s; lastts := lastts s; total := total s; log := log s ++ es |}.

Definition set_stdin (s : state) (rest : list ascii) : state :=
  {| stdin := rest; lastts := lastts s; total := total s; log := log s |}.

Definition set_clock (s : state) (l t : Z) : state :=
  {| stdin := stdin s; lastts := l; total := t; log := log s |}.

(** How a statement ends. *)
Inductive ctl :=
  | Next              (* falls through to the next statement *)
  | Brk               (* [break] out of the loop *)
  | Ret (r : Z)       (* [return r] from [main] *)
  | UB (f : fault).

Inductive status :=
  | Exited (r : Z)    (* [main] returned [r] *)
  | Waiting           (* blocked in [poll]: the world has no more turns *)
  | Undefined (f : fault).

Record outcome := {
  result : status;
  calls : list effect
}.

(** What the parent process sees of the value [main] returns. *)
Definition exit_status (r : Z) : Z := Z.land r 255.

(** ** The program *)

Section Slush.
Context `{Platform}.

(** [open_serial]: the attributes are built from zero, then applied.
    [cfg] carries the file-scope [debug] and [trace]. *)
Definition nterm (cfg : config) (baud icrnl hwfc : Z) : termios :=
  let iflag := if icrnl =? 0 then IGNPAR else Z.lor IGNPAR ICRNL in
  let cflag := Z.lor (Z.lor (Z.lor baud CS8) CLOCAL) CREAD in
  let cflag := if hwfc =? 0 then cflag else Z.lor cflag CRTSCTS in
  let lflag := if (debug cfg =? 0) && (trace cfg =? 0) then ICANON else 0 in
  {| c_iflag := iflag; c_oflag := 0; c_cflag := cflag; c_lflag := lflag;
     c_cc_VTIME := 10; c_cc_VMIN := 1 |}.

Definition open_serial (cfg : config) (name : string) (baud icrnl hwfc : Z)
    (w : world) : Z * list effect :=
  let fd := open_ret w in
  let opened := SysOpen name (Z.lor O_RDWR O_NOCTTY) in
  if fd <? 0 then
    (fd, [opened; StderrErrno ("Cannot open " +:+ name +:+ " : ")])
  else
    (fd, [opened; SysTcflush fd TCIFLUSH;
          SysTcsetattr fd TCSANOW (nterm cfg baud icrnl hwfc)]).

(** [for (i = 0; i < len; i++) printf(..., buf[i])], started at [i] with
    [n] turns left; [show] is the text one byte prints as. *)
Fixpoint print_each (show : ascii -> string) (buf : list ascii) (i : Z)
    (n : nat) : res string :=
  match n with
  | O => Ok ""
  | S n' =>
      c ← load buf i;
      rest ← print_each show buf (i + 1) n';
      Ok (show c +:+ rest)
  end.

Definition show_ascii (c : ascii) : string := String (printable_or_dot c) "".

Definition debug_show_reply (buf : list ascii) (len : Z) : res string :=
  hex ← print_each printf_02hhx buf 0 (Z.to_nat len);
  asc ← print_each show_ascii buf 0 (Z.to_nat len);
  Ok (hex +:+ "  " +:+ asc +:+ nl).

(** [timestamp]: the clock reading in milliseconds, computed in
    [uint64_t]. *)
Definition timestamp (ts : Z * Z) : Z :=
  ((ts.1 * 1000000000 + ts.2) mod 2 ^ 64) / 1000000.

(** [trace_show_reply]: [last] and [tot] are the [static] variables on
    entry; the result carries their values on exit. *)
Definition trace_show_reply (last tot : Z) (ts : Z * Z) (buf : list ascii)
    (len : Z) : (Z * Z) * res string :=
  let now := timestamp ts in
  let diff := if last =? 0 then 0 else (now - last) mod 2 ^ 64 in
  let tot' := if last =? 0 then tot else (tot + diff) mod 2 ^ 64 in
  ((now, tot'),
   asc ← print_each show_ascii buf 0 (Z.to_nat len);
   Ok (printf_PRId64 tot' +:+ " " +:+ printf_PRId64 diff +:+ " " +:+ asc +:+ nl)).

(** [read(fd, reply, sizeof(reply))] on success: at most [BUFLEN] of the
    bytes the line delivers land at the start of [reply]. *)
Definition read_into (reply data : list ascii) : list ascii * Z :=
  let got := take (length reply) data in
  (got ++ drop (length got) reply, Z.of_nat (length got)).

(** [read_reply]: the value returned, and the state after it. *)
Definition read_reply (cfg : config) (fd : Z) (it : iteration) (s : state)
    : res Z * state :=
  match serial_read it with
  | None => (Ok (-1), emit s [Perror "read"])
  | Some data =>
      let '(reply, cnt) := read_into (zeroed BUFLEN) data in
      if negb (debug cfg =? 0) then
        match debug_show_reply reply cnt with
        | Ok text => (Ok 0, emit s [Stdout text; Fflush])
        | Undef f => (Undef f, s)
        end
      else if negb (trace cfg =? 0) then
        let '((last', tot'), text) :=
          trace_show_reply (lastts s) (total s) (clock it) reply cnt in
        match text with
        | Ok text => (Ok 0, emit (set_clock s last' tot') [Stdout text; Fflush])
        | Undef f => (Undef f, set_clock s last' tot')
        end
      else if negb (annotate cfg =? 0) then
        match cstring reply with
        | Ok str =>
            (Ok 0,
             emit s [Stdout ("read " +:+ printf_2d cnt +:+ " bytes {" +:+
                             string_of_list_ascii str +:+ "}" +:+ nl); Fflush])
        | Undef f => (Undef f, s)
        end
      else
        match cstring reply with
        | Ok str => (Ok 0, emit s [Stdout (string_of_list_ascii str); Fflush])
        | Undef f => (Undef f, s)
        end
  end.

Definition usage (progname : string) : effect :=
  Stderr
    ("Usage: " +:+ progname +:+ " [OPTION]..." +:+ nl +:+
     "  -a          annotated mode" +:+ nl +:+
     "  -b [num]    baud rate in bits per second, default: " +:+ printf_d BPS +:+ nl +:+
     "  -c          map CR to NL on input" +:+ nl +:+
     "  -d          debug mode" +:+ nl +:+
     "  -f          enable hardware flow control" +:+ nl +:+
     "  -h          prints this message" +:+ nl +:+
     "  -o [0,1,2]  NL mapping on output, 0=none 1=CR 2=CRNL" +:+ nl +:+
     "  -p [file]   serial port device to open, default: '" +:+ DEVICE +:+ "'" +:+ nl +:+
     "  -t          trace mode, with relative time stamps" +:+ nl).

(** [progname = strrchr(argv[0], '/'); progname = progname ? 1+progname : argv[0]] *)
Fixpoint after_last_slash (s : string) : option string :=
  match s with
  | EmptyString => None
  | String c rest =>
      match after_last_slash rest with
      | Some t => Some t
      | None => if decide (c = "/"%char) then Some rest else None
      end
  end.

Definition progname_of (argv0 : string) : string :=
  default argv0 (after_last_slash argv0).

(** The locals of [main] before the option loop; [device] has no
    initialiser. *)
Definition init_config : config :=
  {| annotate := 0; debug := 0; trace := 0; bps := BPS; icrnl := 0;
     nlmap := 0; hwfc := 0; device := Indeterminate |}.

Definition set_annotate (c : config) (v : Z) : config :=
  {| annotate := v; debug := debug c; trace := trace c; bps := bps c;
     icrnl := icrnl c; nlmap := nlmap c; hwfc := hwfc c; device := device c |}.
Definition set_debug (c : config) (v : Z) : config :=
  {| annotate := annotate c; debug := v; trace := trace c; bps := bps c;
     icrnl := icrnl c; nlmap := nlmap c; hwfc := hwfc c; device := device c |}.
Definition set_trace (c : config) (v : Z) : config :=
  {| annotate := annotate c; debug := debug c; trace := v; bps := bps c;
     icrnl := icrnl c; nlmap := nlmap c; hwfc := hwfc c; device := device c |}.
Definition set_bps (c : config) (v : Z) : config :=
  {| annotate := annotate c; debug := debug c; trace := trace c; bps := v;
     icrnl := icrnl c; nlmap := nlmap c; hwfc := hwfc c; device := device c |}.
Definition set_icrnl (c : config) (v : Z) : config :=
  {| annotate := annotate c; debug := debug c; trace := trace c; bps := bps c;
     icrnl := v; nlmap := nlmap c; hwfc := hwfc c; device := device c |}.
Definition set_nlmap (c : config) (v : Z) : config :=
  {| annotate := annotate c; debug := debug c; trace := trace c; bps := bps c;
     icrnl := icrnl c; nlmap := v; hwfc := hwfc c; device := device c |}.
Definition set_hwfc (c : config) (v : Z) : config :=
  {| annotate := annotate c; debug := debug c; trace := trace c; bps := bps c;
     icrnl := icrnl c; nlmap := nlmap c; hwfc := v; device := device c |}.
Definition set_device (c : config) (v : cptr) : config :=
  {| annotate := annotate c; debug := debug c; trace := trace c; bps := bps c;
     icrnl := icrnl c; nlmap := nlmap c; hwfc := hwfc c; device := v |}.

(** The option loop.  [opts] is what successive calls of
    [getopt(argc, argv, "ab:cdfho:p:t")] return: the option character
    and [optarg]. *)
Inductive parsed :=
  | Parsed (c : config)
  | Stop (r : Z).       (* [usage(progname); return r] *)

Fixpoint getopt_loop (opts : list (ascii * string)) (cfg : config) : parsed :=
  match opts with
  | [] => Parsed cfg
  | (c, optarg) :: rest =>
      match c with
      | "a"%char => getopt_loop rest (set_annotate cfg 1)
      | "b"%char => getopt_loop rest (set_bps cfg (atoi optarg))
      | "c"%char => getopt_loop rest (set_icrnl cfg 1)
      | "d"%char => getopt_loop rest (set_debug cfg 1)
      | "f"%char => getopt_loop rest (set_hwfc cfg 1)
      | "o"%char => getopt_loop rest (set_nlmap cfg (atoi optarg))
      | "p"%char => getopt_loop rest (set_device cfg (Ptr optarg))
      | "t"%char => getopt_loop rest (set_trace cfg 1)
      | "h"%char => Stop 0
      | _ => Stop (-1)
      end
  end.

(** [switch (bps)]: [None] is the [default] branch. *)
Definition baud_of_bps (bps : Z) : option Z :=
  match bps with
  | 1200 => Some B1200
  | 1800 => Some B1800
  | 2400 => Some B2400
  | 4800 => Some B4800
  | 9600 => Some B9600
  | 19200 => Some B19200
  | 38400 => Some B38400
  | 57600 => Some B57600
  | 115200 => Some B115200
  | _ => None
  end.

(** [fgets(buf, size, stdin)]: the bytes taken from the stream (at most
    [n], stopping after a newline) and what is left of the stream. *)
Fixpoint fgets_line (n : nat) (stream : list ascii) : list ascii * list ascii :=
  match n, stream with
  | S n', c :: rest =>
      if decide (c = NL) then ([c], rest)
      else let '(line, rest') := fgets_line n' rest in (c :: line, rest')
  | _, _ => ([], stream)
  end.

(** [None] is the null pointer [fgets] returns at end of file; otherwise
    the line and a terminating NUL are stored at the start of [buf]. *)
Definition fgets (buf : list ascii) (size : nat) (stream : list ascii)
    : option (list ascii * list ascii) :=
  match stream with
  | [] => None
  | _ =>
      let '(line, rest) := fgets_line (size - 1) stream in
      Some (line ++ NUL :: drop (S (length line)) buf, rest)
  end.

(** [switch (nlmap)]: the remapping of the line in [buf]. *)
Definition nl_remap (nlmap : Z) (buf : list ascii) : res (list ascii) :=
  match nlmap with
  | 0 => Ok buf
  | 1 =>
      n ← strlen buf;
      store buf (size_sub n 1) CR
  | 2 =>
      n ← strlen buf;
      buf1 ← store buf (size_sub n 1) CR;
      n1 ← strlen buf1;
      store buf1 n1 NL
  | _ => Ok buf
  end.

(** [if (pfd[0].revents & (POLLIN|POLLPRI)) { ... }] *)
Definition console_part (cfg : config) (fd : Z) (it : iteration) (s : state)
    : ctl * state :=
  if Z.land (revents0 it) (Z.lor POLLIN POLLPRI) =? 0 then (Next, s)
  else
    match fgets (zeroed BUFLEN) BUFLEN (stdin s) with
    | None => (Brk, s)
    | Some (buf, rest) =>
        match buf' ← nl_remap (nlmap cfg) buf; cstring buf' with
        | Ok bytes => (Next, emit (set_stdin s rest) [SysWrite fd bytes])
        | Undef f => (UB f, set_stdin s rest)
        end
    end.

(** The three tests on [pfd[1].revents].  The value of [read_reply] is
    not looked at. *)
Definition serial_part (cfg : config) (fd : Z) (it : iteration) (s : state)
    : ctl * state :=
  if negb (Z.land (revents1 it) POLLERR =? 0) then
    (Ret (-1), emit s [Stderr ("POLLERR" +:+ nl)])
  else if negb (Z.land (revents1 it) POLLHUP =? 0) then
    (Ret (-1), emit s [Stderr ("POLLHUP" +:+ nl)])
  else if negb (Z.land (revents1 it) (Z.lor POLLIN POLLPRI) =? 0) then
    match read_reply cfg fd it s with
    | (Ok _, s') => (Next, s')
    | (Undef f, s') => (UB f, s')
    end
  else (Next, s).

(** One turn of [while (1)]. *)
Definition loop_body (cfg : config) (fd : Z) (it : iteration) (s : state)
    : ctl * state :=
  if poll_ret it <? 0 then (Ret (-1), emit s [Perror "poll failed"])
  else if poll_ret it =? 0 then (Ret (-1), emit s [Perror "unexpected time out"])
  else
    match console_part cfg fd it s with
    | (Next, s1) => serial_part cfg fd it s1
    | stop => stop
    end.

(** The loop, one turn for each answer of the world. *)
Fixpoint main_loop (cfg : config) (fd : Z) (its : list iteration) (s : state)
    : outcome :=
  match its with
  | [] => {| result := Waiting; calls := log s |}
  | it :: rest =>
      match loop_body cfg fd it s with
      | (Next, s') => main_loop cfg fd rest s'
      | (Brk, s') => {| result := Exited 0; calls := log s' |}
      | (Ret r, s') => {| result := Exited r; calls := log s' |}
      | (UB f, s') => {| result := Undefined f; calls := log s' |}
      end
  end.

(** [main], from the end of the option loop on. *)
Definition run (progname : string) (cfg : config) (w : world) : outcome :=
  match baud_of_bps (bps cfg) with
  | None => {| result := Exited (-1); calls := [usage progname] |}
  | Some baud =>
      match device cfg with
      | Indeterminate => {| result := Undefined IndeterminatePointer; calls := [] |}
      | Ptr name =>
          let '(fd, opened) := open_serial cfg name baud (icrnl cfg) (hwfc cfg) w in
          if fd <? 0 then {| result := Exited (-1); calls := opened |}
          else
            main_loop cfg fd (iterations w)
              {| stdin := console w; lastts := 0; total := 0; log := opened |}
      end
  end.

Definition main (argv0 : string) (opts : list (ascii * string)) (w : world)
    : outcome :=
  let progname := progname_of argv0 in
  match getopt_loop opts init_config with
  | Stop r => {| result := Exited r; calls := [usage progname] |}
  | Parsed cfg => run progname cfg w
  end.

End Slush.

(** ** Vocabulary of the specification *)

(** Canonical input mode is on in [t]. *)
Definition canonical `{Platform} (t : termios) : bool :=
  negb (Z.land (c_lflag t) ICANON =? 0).

(** The supported rates, each with its platform constant. *)
Definition baud_table `{Platform} : list (Z * Z) :=
  [(1200, B1200); (1800, B1800); (2400, B2400); (4800, B4800);
   (9600, B9600); (19200, B19200); (38400, B38400); (57600, B57600);
   (115200, B115200)].

Definition supported_bauds : list Z :=
  [1200; 1800; 2400; 4800; 9600; 19200; 38400; 57600; 115200].

(** A byte as two lowercase hexadecimal digits. *)
Definition hex2 (c : ascii) : string :=
  let n := Z.of_nat (nat_of_ascii c) in
  String (hexdigit (n / 16)) (String (hexdigit (n mod 16)) "").

(** The debug rendering of a chunk, in the words of the specification:
    the hex digits of every byte with no separator, two spaces, then the
    bytes with every non-printable one replaced by a dot. *)
Definition debug_rendering (chunk : list ascii) : string :=
  String.concat "" (map hex2 chunk) +:+ "  " +:+
  string_of_list_ascii (map printable_or_dot chunk).

(** The bytes of a chunk before its first NUL. *)
Fixpoint before_nul (chunk : list ascii) : list ascii :=
  match chunk with
  | [] => []
  | c :: rest => if decide (c = NUL) then [] else c :: before_nul rest
  end.

(** The trace line for one event. *)
Definition trace_line (tot diff : Z) (chunk : list ascii) : string :=
  printf_d tot +:+ " " +:+ printf_d diff +:+ " " +:+
  string_of_list_ascii (map printable_or_dot chunk) +:+ nl.

(** The trace rendering of a sequence of events (time in milliseconds,
    chunk), in the words of the specification: the first event shows
    0 and 0; every later one shows the time elapsed since the event
    before it, and the sum of these differences so far. *)
Fixpoint trace_rendering_from (prev tot : Z) (evs : list (Z * list ascii))
    : list string :=
  match evs with
  | [] => []
  | (t, chunk) :: rest =>
      let diff := t - prev in
      trace_line (tot + diff) diff chunk :: trace_rendering_from t (tot + diff) rest
  end.

Definition trace_rendering (evs : list (Z * list ascii)) : list string :=
  match evs with
  | [] => []
  | (t, chunk) :: rest => trace_line 0 0 chunk :: trace_rendering_from t 0 rest
  end.

(** Successive calls of [read_reply], as the turns of the loop make
    them; the state carries the [static] variables of
    [trace_show_reply] from one call to the next. *)
Definition read_replies (cfg : config) (fd : Z) (its : list iteration)
    (s : state) : state :=
  foldl (fun s it => (read_reply cfg fd it s).2) s its.

(** The event of a turn: the clock in milliseconds and the chunk read. *)
Definition trace_event (it : iteration) : Z * list ascii :=
  (timestamp (clock it), default [] (serial_read it)).

(** A turn whose [read] delivers a chunk that fits in [reply]. *)
Definition delivers (it : iteration) : Prop :=
  exists chunk, serial_read it = Some chunk /\ (length chunk <= BUFLEN)%nat.

(** Lines printed on standard output, each one flushed. *)
Fixpoint printed (lines : list string) : list effect :=
  match lines with
  | [] => []
  | line :: rest => Stdout line :: Fflush :: printed rest
  end.

(** The serial descriptor is ready for reading and shows no error. *)
Definition serial_ready `{Platform} (it : iteration) : Prop :=
  Z.land (revents1 it) POLLERR = 0 /\
  Z.land (revents1 it) POLLHUP = 0 /\
  Z.land (revents1 it) (Z.lor POLLIN POLLPRI) <> 0.

Definition console_ready `{Platform} (it : iteration) : Prop :=
  Z.land (revents0 it) (Z.lor POLLIN POLLPRI) <> 0.

(** The buffer of [main] after [memset] and an [fgets] that stored
    [line]: the line, its terminator, and what is left of the zeroed
    array. *)
Definition slack (line : list ascii) : list ascii :=
  drop (S (length line)) (zeroed BUFLEN).

Definition line_buffer (line : list ascii) : list ascii :=
  line ++ NUL :: slack line.

(** ** Worlds and inputs for the examples *)

(** The console is ready (bit [POLLIN] of Linux). *)
Definition console_turn : iteration :=
  {| poll_ret := 1; revents0 := 1; revents1 := 0; serial_read := None;
     clock := (0, 0) |}.

(** The serial line is ready (bit [POLLIN] of Linux) and [read] answers
    [r] at clock reading [ts]. *)
Definition serial_turn (r : option (list ascii)) (ts : Z * Z) : iteration :=
  {| poll_ret := 1; revents0 := 0; revents1 := 1; serial_read := r;
     clock := ts |}.

Definition plain_config : config :=
  {| annotate := 0; debug := 0; trace := 0; bps := BPS; icrnl := 0;
     nlmap := 0; hwfc := 0; device := Ptr DEVICE |}.

Definition annotate_config : config :=
  {| annotate := 1; debug := 0; trace := 0; bps := BPS; icrnl := 0;
     nlmap := 0; hwfc := 0; device := Ptr DEVICE |}.

(** [plain_config] with another value of [nlmap]. *)
Definition nlmap_config (n : Z) : config :=
  {| annotate := 0; debug := 0; trace := 0; bps := BPS; icrnl := 0;
     nlmap := n; hwfc := 0; device := Ptr DEVICE |}.

Definition state0 (input : list ascii) : state :=
  {| stdin := input; lastts := 0; total := 0; log := [] |}.

Definition hello : list ascii := list_ascii_of_string "hello" ++ [NL].

(** A line of [BUFLEN - 1] letters, with no newline. *)
Definition full_line : list ascii := replicate (BUFLEN - 1) "a"%char.

(** [BUFLEN - 2] letters, to be followed by a newline. *)
Definition long_body : list ascii := replicate (BUFLEN - 2) "a"%char.

(** The serial line delivers nothing once, then the console is at end
    of file. *)
Definition empty_read_world : world :=
  {| open_ret := 3; console := [];
     iterations := [serial_turn (Some []) (0, 0); console_turn] |}.

(** [read] fails once, then the console is at end of file. *)
Definition failed_read_world : world :=
  {| open_ret := 3; console := [];
     iterations := [serial_turn None (0, 0); console_turn] |}.

Definition no_turns : world :=
  {| open_ret := 3; console := []; iterations := [] |}.

Definition trace_config : config :=
  {| annotate := 0; debug := 0; trace := 1; bps := BPS; icrnl := 0;
     nlmap := 0; hwfc := 0; device := Ptr DEVICE |}.

(** Three chunks, at 5000 ms, 150 ms later and 50 ms after that. *)
Definition three_events : list iteration :=
  [serial_turn (Some ["A"%char]) (5, 0);
   serial_turn (Some ["B"%char]) (5, 150000000);
   serial_turn (Some ["C"%char]) (5, 200000000)].

(** Two chunks, the first when the clock reads 0, the second 150 ms
    later. *)
Definition events_from_zero : list iteration :=
  [serial_turn (Some ["A"%char]) (0, 0);
   serial_turn (Some ["B"%char]) (0, 150000000)].

(** Five bytes with a NUL in the middle. *)
Definition chunk_with_nul : list ascii :=
  ["a"%char; "b"%char; NUL; "c"%char; "d"%char].

(** ** Vocabulary for the option loop and the log *)

(** The option characters that set something and let the option loop go
    on; every other character ends [main]. *)
Definition setting_options : list ascii :=
  ["a"; "b"; "c"; "d"; "f"; "o"; "p"; "t"]%char.

(** The value of a flag that option [c] sets: 1 if [c] occurs among the
    options, else what it was. *)
Definition flag_of (c : ascii) (opts : list (ascii * string)) (v0 : Z) : Z :=
  if decide (c ∈ opts.*1) then 1 else v0.

(** The argument of the last occurrence of option [c]. *)
Fixpoint last_optarg (c : ascii) (opts : list (ascii * string))
    : option string :=
  match opts with
  | [] => None
  | (c', optarg) :: rest =>
      match last_optarg c rest with
      | Some later => Some later
      | None => if decide (c' = c) then Some optarg else None
      end
  end.

(** The bytes sent to the serial line, in the order of the calls. *)
Fixpoint written (l : list effect) : list ascii :=
  match l with
  | [] => []
  | SysWrite _ bytes :: rest => bytes ++ written rest
  | _ :: rest => written rest
  end.

(** Every text sent to standard output is followed at once by a flush. *)
Fixpoint flushed (l : list effect) : bool :=
  match l with
  | [] => true
  | Stdout _ :: Fflush :: rest => flushed rest
  | Stdout _ :: _ => false
  | _ :: rest => flushed rest
  end.

(** What the loop may do once the line is configured: write to the
    descriptor [fd] at most [BUFLEN - 1] bytes with no NUL among them,
    print, flush and report. *)
Definition loop_effect (fd : Z) (e : effect) : Prop :=
  match e with
  | SysWrite fd' bytes =>
      fd' = fd /\ (NUL ∉ bytes) /\ (length bytes < BUFLEN)%nat
  | Stdout _ | Fflush | Stderr _ | Perror _ => True
  | SysOpen _ _ | SysTcflush _ _ | SysTcsetattr _ _ _ | StderrErrno _ => False
  end.

(** What a step from [s] to [s'] does to the log: it adds [es], which
    are effects of the loop, flushed. *)
Definition adds (fd : Z) (s s' : state) (es : list effect) : Prop :=
  log s' = log s ++ es /\ Forall (loop_effect fd) es /\ flushed es = true.

(** [cfg] with the three display flags replaced. *)
Definition with_display (cfg : config) (a d t : Z) : config :=
  set_annotate (set_debug (set_trace cfg t) d) a.

(** The time of the last event of a list, [t0] if there is none. *)
Definition last_time (its : list iteration) (t0 : Z) : Z :=
  List.last (map (fun it => timestamp (clock it)) its) t0.

(** Inputs for the examples. *)
Definition failing_open : world :=
  {| open_ret := -1; console := []; iterations := [] |}.

Definition all_display_config : config :=
  {| annotate := 1; debug := 1; trace := 1; bps := BPS; icrnl := 0;
     nlmap := 0; hwfc := 0; device := Ptr DEVICE |}.

(** [BUFLEN] letters: a read that fills [reply]. *)
Definition full_chunk : list ascii := replicate BUFLEN "a"%char.

(** The console delivers [hello] and ends; the console is ready twice. *)
Definition hello_world : world :=
  {| open_ret := 3; console := hello;
     iterations := [console_turn; console_turn] |}.

(** A console line with a NUL in it, and a last line with no newline. *)
Definition nul_line : list ascii := ["a"%char; NUL; "b"%char; NL].

Definition unfinished_line : list ascii := list_ascii_of_string "hi".

(** The serial line reports data and a hang-up at once (bits [POLLIN]
    and [POLLHUP] of Linux); the console reports input and the line an
    error (bit [POLLERR]). *)
Definition hangup_turn : iteration :=
  {| poll_ret := 1; revents0 := 0; revents1 := 17;
     serial_read := Some ["A"%char]; clock := (0, 0) |}.

Definition eof_and_error_turn : iteration :=
  {| poll_ret := 2; revents0 := 1; revents1 := 8; serial_read := None;
     clock := (0, 0) |}.

(** * Properties *)

Section Properties.
Context `{Platform}.

(** ** C strings *)

Lemma strlen_before_nul (buf : list ascii) :
  NUL ∈ buf -> strlen buf = Ok (Z.of_nat (length (before_nul buf))).
Proof.
  induction buf as [|c buf IH]; intros Hin.
  - by apply elem_of_nil in Hin.
  - simpl. destruct (decide (c = NUL)) as [->|Hc]; [done|].
    apply elem_of_cons in Hin as [Heq|Hin]; [congruence|].
    rewrite (IH Hin). simpl. f_equal. lia.
Qed.

Lemma strlen_no_nul (buf : list ascii) :
  NUL ∉ buf -> strlen buf = Undef OobRead.
Proof.
  induction buf as [|c buf IH]; intros Hnot; [done|].
  simpl. apply not_elem_of_cons in Hnot as [Hc Hnot].
  destruct (decide (c = NUL)); [congruence|]. by rewrite (IH Hnot).
Qed.

Lemma before_nul_prefix (buf : list ascii) :
  take (length (before_nul buf)) buf = before_nul buf.
Proof.
  induction buf as [|c buf IH]; [done|].
  simpl. destruct (decide (c = NUL)); [done|]. simpl. by rewrite IH.
Qed.

Lemma before_nul_app (line rest : list ascii) :
  NUL ∉ line -> before_nul (line ++ NUL :: rest) = line.
Proof.
  induction line as [|c line IH]; intros Hnot; simpl.
  - by destruct (decide (NUL = NUL)).
  - apply not_elem_of_cons in Hnot as [Hc Hnot].
    destruct (decide (c = NUL)); [congruence|]. by rewrite (IH Hnot).
Qed.

Lemma before_nul_app_l (data rest : list ascii) :
  NUL ∈ data -> before_nul (data ++ rest) = before_nul data.
Proof.
  induction data as [|c data IH]; intros Hin.
  - by apply elem_of_nil in Hin.
  - simpl. destruct (decide (c = NUL)); [done|].
    apply elem_of_cons in Hin as [Heq|Hin]; [congruence|]. by rewrite (IH Hin).
Qed.

Lemma cstring_before_nul (buf : list ascii) :
  NUL ∈ buf -> cstring buf = Ok (before_nul buf).
Proof.
  intros Hin. unfold cstring. rewrite (strlen_before_nul _ Hin). simpl.
  by rewrite Nat2Z.id, before_nul_prefix.
Qed.

Lemma cstring_line (line rest : list ascii) :
  NUL ∉ line -> cstring (line ++ NUL :: rest) = Ok line.
Proof.
  intros Hnot. rewrite cstring_before_nul.
  - by rewrite before_nul_app.
  - apply elem_of_app. right. apply elem_of_cons. by left.
Qed.

Lemma strlen_line (line rest : list ascii) :
  NUL ∉ line -> strlen (line ++ NUL :: rest) = Ok (Z.of_nat (length line)).
Proof.
  intros Hnot. rewrite strlen_before_nul.
  - by rewrite before_nul_app.
  - apply elem_of_app. right. apply elem_of_cons. by left.
Qed.

(** ** The log only grows *)

Lemma emit_log (s : state) (es : list effect) : log (emit s es) = log s ++ es.
Proof. done. Qed.

Lemma read_reply_log cfg fd it s :
  log s `prefix_of` log (read_reply cfg fd it s).2.
Proof.
  unfold read_reply. destruct (serial_read it) as [data|].
  - destruct (read_into _ _) as [reply cnt].
    destruct (negb (debug cfg =? 0)).
    { destruct (debug_show_reply _ _); simpl; [by apply prefix_app_r|done]. }
    destruct (negb (trace cfg =? 0)).
    { destruct (trace_show_reply _ _ _ _ _) as [[last' tot'] [text|f]]; simpl;
        [by apply prefix_app_r|done]. }
    destruct (negb (annotate cfg =? 0));
      destruct (cstring reply); simpl; try done; by apply prefix_app_r.
  - by apply prefix_app_r.
Qed.

Lemma console_part_log cfg fd it s :
  log s `prefix_of` log (console_part cfg fd it s).2.
Proof.
  unfold console_part.
  destruct (_ =? 0); [done|].
  destruct (fgets _ _ _) as [[buf rest]|]; [|done].
  destruct (_ ≫= _); simpl; [by apply prefix_app_r|done].
Qed.

Lemma serial_part_log cfg fd it s :
  log s `prefix_of` log (serial_part cfg fd it s).2.
Proof.
  unfold serial_part.
  destruct (negb _); [by apply prefix_app_r|].
  destruct (negb _); [by apply prefix_app_r|].
  destruct (negb _); [|done].
  pose proof (read_reply_log cfg fd it s) as Hp.
  by destruct (read_reply cfg fd it s) as [[r|f] s'].
Qed.

Lemma loop_body_log cfg fd it s :
  log s `prefix_of` log (loop_body cfg fd it s).2.
Proof.
  unfold loop_body.
  destruct (_ <? 0); [by apply prefix_app_r|].
  destruct (_ =? 0); [by apply prefix_app_r|].
  pose proof (console_part_log cfg fd it s) as Hc.
  destruct (console_part cfg fd it s) as [[| | |] s1]; try done.
  etrans; [exact Hc|]. apply serial_part_log.
Qed.

Lemma main_loop_log cfg fd its s :
  log s `prefix_of` calls (main_loop cfg fd its s).
Proof.
  revert s. induction its as [|it its IH]; intros s; simpl; [done|].
  pose proof (loop_body_log cfg fd it s) as Hb.
  destruct (loop_body cfg fd it s) as [[| | |] s']; simpl in *; try done.
  etrans; [exact Hb|]. apply IH.
Qed.

(** ** Line configuration *)

(** C6.  In the attributes [open_serial] applies, canonical input mode
    is on if and only if neither [debug] nor [trace] is set; when one of
    them is set the local modes are all off (raw input). *)
Theorem open_serial_canonical_iff cfg name baud icrnl hwfc w :
  ICANON <> 0 -> 0 <= open_ret w ->
  let t := nterm cfg baud icrnl hwfc in
  last (open_serial cfg name baud icrnl hwfc w).2
    = Some (SysTcsetattr (open_ret w) TCSANOW t) /\
  (canonical t = true <-> debug cfg = 0 /\ trace cfg = 0) /\
  (canonical t = false -> c_lflag t = 0).
Proof.
  intros Hcanon Hfd t. split; [|split].
  - unfold open_serial. destruct (open_ret w <? 0) eqn:Hneg; [lia|done].
  - unfold canonical, t, nterm. simpl.
    destruct (debug cfg =? 0) eqn:Hd; destruct (trace cfg =? 0) eqn:Ht; simpl;
      rewrite ?Z.land_diag, ?Z.land_0_l.
    + destruct (ICANON =? 0) eqn:Hz; [lia|]. simpl. split; [lia|done].
    + simpl. split; [done|lia].
    + simpl. split; [done|lia].
    + simpl. split; [done|lia].
  - unfold canonical, t, nterm. simpl.
    destruct ((debug cfg =? 0) && (trace cfg =? 0)); [|done].
    rewrite Z.land_diag. destruct (ICANON =? 0) eqn:Hz; [lia|done].
Qed.

(** ** The baud rate *)

Lemma baud_of_bps_supported (b k : Z) :
  (b, k) ∈ baud_table -> baud_of_bps b = Some k.
Proof.
  unfold baud_table. intros Hin.
  repeat (apply elem_of_cons in Hin as [Heq|Hin];
          [injection Heq as -> ->; reflexivity|]).
  by apply elem_of_nil in Hin.
Qed.

Lemma baud_of_bps_unsupported (b : Z) :
  b ∉ supported_bauds -> baud_of_bps b = None.
Proof.
  intros Hnot. destruct (baud_of_bps b) as [k|] eqn:Hb; [|done].
  exfalso. apply Hnot. clear Hnot. unfold baud_of_bps in Hb.
  destruct b as [|p|p]; try discriminate.
  repeat (destruct p as [p|p|]; try discriminate);
    vm_compute; repeat (first [left; reflexivity | right]).
Qed.

(** C7.  After the option loop, [main] looks the rate up: a supported
    rate gives its platform constant and [main] goes on to
    [open_serial] with it; any other value makes [main] print the usage
    text and return -1 (a non-zero exit status), and nothing is
    opened. *)
Theorem main_baud_check argv0 opts cfg w :
  getopt_loop opts init_config = Parsed cfg ->
  (forall k, (bps cfg, k) ∈ baud_table ->
     baud_of_bps (bps cfg) = Some k /\
     forall name, device cfg = Ptr name ->
       (open_serial cfg name k (icrnl cfg) (hwfc cfg) w).2
         `prefix_of` calls (main argv0 opts w)) /\
  (bps cfg ∉ supported_bauds ->
     main argv0 opts w
       = {| result := Exited (-1); calls := [usage (progname_of argv0)] |} /\
     exit_status (-1) <> 0 /\
     forall name flags, SysOpen name flags ∉ calls (main argv0 opts w)).
Proof.
  intros Hparse. unfold main. rewrite Hparse. split.
  - intros k Hk. pose proof (baud_of_bps_supported _ _ Hk) as Hb.
    split; [done|]. intros name Hdev. unfold run. rewrite Hb, Hdev.
    unfold open_serial. cbv zeta.
    destruct (open_ret w <? 0) eqn:Hneg; rewrite ?Hneg; [simpl; reflexivity|].
    apply (main_loop_log cfg (open_ret w) (iterations w)
             {| stdin := console w; lastts := 0; total := 0;
                log := [SysOpen name (Z.lor O_RDWR O_NOCTTY);
                        SysTcflush (open_ret w) TCIFLUSH;
                        SysTcsetattr (open_ret w) TCSANOW
                          (nterm cfg k (icrnl cfg) (hwfc cfg))] |}).
  - intros Hnot. unfold run. rewrite (baud_of_bps_unsupported _ Hnot).
    split; [done|]. split; [done|].
    intros name flags Hin. simpl in Hin.
    apply list_elem_of_singleton in Hin. discriminate.
Qed.

(** ** The device path *)

Lemma getopt_loop_device opts : forall cfg cfg',
  Forall (fun o : ascii * string => o.1 <> "p"%char) opts ->
  getopt_loop opts cfg = Parsed cfg' -> device cfg' = device cfg.
Proof.
  induction opts as [|[c optarg] opts IH]; intros cfg cfg' Hnop Hparse.
  - simpl in Hparse. by injection Hparse as <-.
  - apply Forall_cons in Hnop as [Hc Hnop]. simpl in Hc, Hparse.
    destruct c as [[] [] [] [] [] [] [] []]; try discriminate Hparse;
      by apply (IH _ _ Hnop) in Hparse.
Qed.

(** C2.  Without a [-p] option the variable [device] is still
    indeterminate when [main] reaches [open_serial]: the default path
    [DEVICE] is never opened, it only appears in the usage text. *)
Theorem main_without_p_device_indeterminate argv0 opts cfg w :
  Forall (fun o : ascii * string => o.1 <> "p"%char) opts ->
  getopt_loop opts init_config = Parsed cfg ->
  device cfg = Indeterminate /\
  (is_Some (baud_of_bps (bps cfg)) ->
     main argv0 opts w
       = {| result := Undefined IndeterminatePointer; calls := [] |}) /\
  (forall flags, SysOpen DEVICE flags ∉ calls (main argv0 opts w)).
Proof.
  intros Hnop Hparse.
  pose proof (getopt_loop_device _ _ _ Hnop Hparse) as Hdev. simpl in Hdev.
  split; [done|]. unfold main, run. rewrite Hparse, Hdev. split.
  - by intros [k ->].
  - intros flags. destruct (baud_of_bps (bps cfg)); simpl.
    + apply not_elem_of_nil.
    + intros Hin. apply list_elem_of_singleton in Hin. discriminate.
Qed.

(** ** Rendering *)

Lemma append_assoc (a b c : string) : (a +:+ b) +:+ c = a +:+ b +:+ c.
Proof.
  induction a as [|x a IH]; [done|].
  change (String x ((a +:+ b) +:+ c) = String x (a +:+ b +:+ c)). by f_equal.
Qed.

Lemma append_nil_r (a : string) : a +:+ "" = a.
Proof.
  induction a as [|x a IH]; [done|].
  change (String x (a +:+ "") = String x a). by f_equal.
Qed.

Lemma concat_cons (a : string) (l : list string) :
  String.concat "" (a :: l) = a +:+ String.concat "" l.
Proof. destruct l; simpl; [by rewrite append_nil_r|reflexivity]. Qed.

Lemma load_middle (pre post : list ascii) (c : ascii) :
  load (pre ++ c :: post) (Z.of_nat (length pre)) = Ok c.
Proof.
  unfold load. destruct (decide (0 <= Z.of_nat (length pre))); [|lia].
  by rewrite Nat2Z.id, list_lookup_middle.
Qed.

(** The loop over [len] bytes prints the bytes of the chunk, in order. *)
Lemma print_each_chunk (show : ascii -> string) (chunk : list ascii) :
  forall pre post,
    print_each show (pre ++ chunk ++ post) (Z.of_nat (length pre)) (length chunk)
    = Ok (String.concat "" (map show chunk)).
Proof.
  induction chunk as [|c chunk IH]; intros pre post; simpl; [done|].
  rewrite load_middle. simpl.
  specialize (IH (pre ++ [c]) post).
  rewrite <- app_assoc in IH. simpl in IH.
  rewrite length_app in IH. simpl in IH.
  replace (Z.of_nat (length pre) + 1) with (Z.of_nat (length pre + 1)) by lia.
  rewrite IH. simpl. f_equal. symmetry.
  apply (concat_cons (show c) (map show chunk)).
Qed.

Lemma print_each_take (show : ascii -> string) (buf : list ascii) (n : nat) :
  (n <= length buf)%nat ->
  print_each show buf 0 n = Ok (String.concat "" (map show (take n buf))).
Proof.
  intros Hn.
  pose proof (print_each_chunk show (take n buf) [] (drop n buf)) as Hp.
  simpl in Hp. rewrite take_drop, length_take_le in Hp by done. exact Hp.
Qed.

Lemma concat_show_ascii (chunk : list ascii) :
  String.concat "" (map show_ascii chunk)
  = string_of_list_ascii (map printable_or_dot chunk).
Proof.
  induction chunk as [|c chunk IH]; [done|].
  rewrite map_cons, concat_cons, IH. reflexivity.
Qed.

Lemma printf_02hhx_hex2 (c : ascii) : printf_02hhx c = hex2 c.
Proof. destruct c as [[] [] [] [] [] [] [] []]; vm_compute; reflexivity. Qed.

Lemma debug_show_reply_take (buf : list ascii) (n : nat) :
  (n <= length buf)%nat ->
  debug_show_reply buf (Z.of_nat n) = Ok (debug_rendering (take n buf) +:+ nl).
Proof.
  intros Hn. unfold debug_show_reply, debug_rendering.
  rewrite Nat2Z.id, !print_each_take by done. simpl.
  rewrite concat_show_ascii, !append_assoc.
  do 3 f_equal. apply map_ext. intros c. apply printf_02hhx_hex2.
Qed.

(** C8.  [debug_show_reply] prints, for the first [len] bytes of the
    buffer, two lowercase hex digits per byte with no separator, two
    spaces, and the bytes with every non-printable one replaced by a
    dot (then a newline). *)
Theorem debug_show_reply_rendering (buf : list ascii) (len : Z) :
  0 <= len <= Z.of_nat (length buf) ->
  debug_show_reply buf len
  = Ok (debug_rendering (take (Z.to_nat len) buf) +:+ nl).
Proof.
  intros Hlen. rewrite <- (Z2Nat.id len) at 1 by lia.
  apply debug_show_reply_take. lia.
Qed.

(** What [read] leaves in a zeroed [reply], for a chunk that fits. *)
Lemma read_into_fits (data : list ascii) :
  (length data <= BUFLEN)%nat ->
  read_into (zeroed BUFLEN) data
  = (data ++ drop (length data) (zeroed BUFLEN), Z.of_nat (length data)).
Proof.
  intros Hlen. unfold read_into, zeroed.
  rewrite length_replicate, take_ge by done. done.
Qed.

(** In debug mode [read_reply] shows the debug rendering of the whole
    chunk. *)
Lemma read_reply_debug cfg fd it s data :
  serial_read it = Some data -> (length data <= BUFLEN)%nat ->
  debug cfg <> 0 ->
  read_reply cfg fd it s
  = (Ok 0, emit s [Stdout (debug_rendering data +:+ nl); Fflush]).
Proof.
  intros Hread Hlen Hdebug. unfold read_reply.
  rewrite Hread, read_into_fits by done.
  destruct (debug cfg =? 0) eqn:Hd; [lia|]. simpl.
  rewrite debug_show_reply_take, take_app_length; [done|].
  rewrite length_app. lia.
Qed.

(** C9.  For a chunk with an embedded NUL, plain mode writes only the
    bytes before the first NUL, and annotate mode reports the full
    number of bytes read (and shows the same truncated string). *)
Theorem read_reply_embedded_nul cfg fd it s data :
  serial_read it = Some data -> (length data <= BUFLEN)%nat ->
  NUL ∈ data -> debug cfg = 0 -> trace cfg = 0 ->
  (annotate cfg = 0 ->
     read_reply cfg fd it s
     = (Ok 0, emit s [Stdout (string_of_list_ascii (before_nul data)); Fflush])) /\
  (annotate cfg <> 0 ->
     read_reply cfg fd it s
     = (Ok 0,
        emit s [Stdout ("read " +:+ printf_2d (Z.of_nat (length data)) +:+
                        " bytes {" +:+ string_of_list_ascii (before_nul data) +:+
                        "}" +:+ nl); Fflush])).
Proof.
  intros Hread Hlen Hnul Hdebug Htrace.
  assert (cstring (data ++ drop (length data) (zeroed BUFLEN))
          = Ok (before_nul data)) as Hstr.
  { rewrite cstring_before_nul.
    - by rewrite before_nul_app_l.
    - apply elem_of_app. by left. }
  split; intros Hann; unfold read_reply;
    rewrite Hread, read_into_fits, Hdebug, Htrace by done; simpl.
  - rewrite Hann. simpl. by rewrite Hstr.
  - destruct (annotate cfg =? 0) eqn:Ha; [lia|]. simpl. by rewrite Hstr.
Qed.

(** ** Console lines *)

Lemma fgets_line_newline (body rest : list ascii) : forall n,
  NL ∉ body -> (length body < n)%nat ->
  fgets_line n (body ++ NL :: rest) = (body ++ [NL], rest).
Proof.
  induction body as [|c body IH]; intros n Hnl Hlen; simpl in *.
  - destruct n as [|n]; [lia|]. simpl. by destruct (decide (NL = NL)).
  - destruct n as [|n]; [lia|]. simpl.
    apply not_elem_of_cons in Hnl as [Hc Hnl].
    destruct (decide (c = NL)); [congruence|].
    rewrite IH by (done || lia). done.
Qed.

Lemma fgets_line_full (n : nat) : forall stream,
  (n <= length stream)%nat -> NL ∉ take n stream ->
  fgets_line n stream = (take n stream, drop n stream).
Proof.
  induction n as [|n IH]; intros stream Hlen Hnl.
  - by destruct stream.
  - destruct stream as [|c stream]; simpl in *; [lia|].
    apply not_elem_of_cons in Hnl as [Hc Hnl].
    destruct (decide (c = NL)); [congruence|].
    rewrite IH by (done || lia). done.
Qed.

Lemma fgets_some (stream line rest : list ascii) :
  stream <> [] -> fgets_line (BUFLEN - 1) stream = (line, rest) ->
  fgets (zeroed BUFLEN) BUFLEN stream = Some (line_buffer line, rest).
Proof.
  intros Hne Hline. unfold fgets. rewrite Hline. by destruct stream.
Qed.

Lemma not_elem_of_insert (l : list ascii) (i : nat) (x y : ascii) :
  x ∉ l -> x <> y -> x ∉ <[i := y]> l.
Proof.
  intros Hl Hxy Hin. apply list_elem_of_In in Hin.
  assert (Forall (fun c => x <> c) (<[i := y]> l)) as Hall.
  { apply Forall_insert; [|done]. apply Forall_forall. intros c Hc ->. done. }
  rewrite Forall_forall in Hall. apply list_elem_of_In in Hin. by apply (Hall x).
Qed.

Lemma size_sub_1 (n : Z) : 0 < n < 2 ^ 64 -> size_sub n 1 = n - 1.
Proof. intros Hn. unfold size_sub. apply Z.mod_small. lia. Qed.

Lemma store_inside (buf : list ascii) (i : nat) (c : ascii) :
  (i < length buf)%nat -> store buf (Z.of_nat i) c = Ok (<[i := c]> buf).
Proof.
  intros Hi. unfold store. destruct (decide _) as [_|Hout]; [|lia].
  by rewrite Nat2Z.id.
Qed.

Lemma NUL_CR : NUL <> CR.
Proof. discriminate. Qed.

(** Mode 1 on a line without NUL: the last byte becomes CR. *)
Lemma nl_remap_1_line (line : list ascii) :
  NUL ∉ line -> (0 < length line <= BUFLEN - 1)%nat ->
  nl_remap 1 (line_buffer line)
  = Ok (line_buffer (<[(length line - 1)%nat := CR]> line)).
Proof.
  intros Hnul Hlen. unfold nl_remap, line_buffer.
  rewrite strlen_line by done. simpl.
  rewrite size_sub_1 by (unfold BUFLEN in *; lia).
  replace (Z.of_nat (length line) - 1) with (Z.of_nat (length line - 1)) by lia.
  rewrite store_inside by (rewrite length_app; lia).
  rewrite insert_app_l by lia. unfold slack. by rewrite length_insert.
Qed.

(** Mode 2 on a line without NUL: the last byte becomes CR and the
    terminator becomes a newline; both stores are inside the array. *)
Lemma nl_remap_2_line (line : list ascii) :
  NUL ∉ line -> (0 < length line <= BUFLEN - 1)%nat ->
  nl_remap 2 (line_buffer line)
  = Ok (<[(length line - 1)%nat := CR]> line ++ NL :: slack line).
Proof.
  intros Hnul Hlen. unfold nl_remap, line_buffer. fold (slack line).
  rewrite strlen_line by done. simpl.
  rewrite size_sub_1 by (unfold BUFLEN in *; lia).
  replace (Z.of_nat (length line) - 1) with (Z.of_nat (length line - 1)) by lia.
  rewrite store_inside by (rewrite length_app; lia). simpl.
  rewrite insert_app_l by lia.
  rewrite strlen_line by (apply not_elem_of_insert; [done|apply NUL_CR]).
  simpl. rewrite store_inside by (rewrite length_app; simpl; lia).
  pose proof (insert_app_r (<[(length line - 1)%nat := CR]> line)
                (NUL :: slack line) 0 NL) as Hins.
  rewrite Nat.add_0_r in Hins. by rewrite Hins.
Qed.

Lemma slack_room (line : list ascii) :
  (length line < BUFLEN - 1)%nat ->
  exists tail, slack line = NUL :: tail.
Proof.
  intros Hlen. unfold slack, zeroed. rewrite drop_replicate.
  destruct (BUFLEN - S (length line))%nat as [|k] eqn:Hk; [lia|].
  by exists (replicate k NUL).
Qed.

Lemma slack_full (line : list ascii) :
  length line = (BUFLEN - 1)%nat -> slack line = [].
Proof.
  intros Hlen. unfold slack, zeroed. rewrite drop_replicate, Hlen. done.
Qed.

Lemma console_part_ready cfg fd it s line rest :
  console_ready it -> stdin s <> [] ->
  fgets_line (BUFLEN - 1) (stdin s) = (line, rest) ->
  console_part cfg fd it s
  = match buf' ← nl_remap (nlmap cfg) (line_buffer line); cstring buf' with
    | Ok bytes => (Next, emit (set_stdin s rest) [SysWrite fd bytes])
    | Undef f => (UB f, set_stdin s rest)
    end.
Proof.
  intros Hready Hne Hline. unfold console_part.
  destruct (_ =? 0) eqn:Hz; [unfold console_ready in Hready; lia|].
  by rewrite (fgets_some _ _ _ Hne Hline).
Qed.

(** A line that ends in a newline and leaves room in the buffer is
    written as it is in mode 0, with CR for the newline in mode 1, and
    with CR and a newline in mode 2 (which needs one byte more). *)
Lemma console_part_newline_line cfg fd it s body rest :
  console_ready it -> stdin s = body ++ NL :: rest ->
  NL ∉ body -> NUL ∉ body -> (length body + 1 <= BUFLEN - 1)%nat ->
  (nlmap cfg = 0 ->
     console_part cfg fd it s
     = (Next, emit (set_stdin s rest) [SysWrite fd (body ++ [NL])])) /\
  (nlmap cfg = 1 ->
     console_part cfg fd it s
     = (Next, emit (set_stdin s rest) [SysWrite fd (body ++ [CR])])) /\
  (nlmap cfg = 2 -> (length body + 2 <= BUFLEN - 1)%nat ->
     console_part cfg fd it s
     = (Next, emit (set_stdin s rest) [SysWrite fd (body ++ [CR; NL])])).
Proof.
  intros Hready Hin Hnl Hnul Hlen.
  assert (NUL ∉ body ++ [NL]) as Hnul'.
  { apply not_elem_of_app. split; [done|].
    intros Hx. apply list_elem_of_singleton in Hx. discriminate. }
  assert (length (body ++ [NL]) = (length body + 1)%nat) as Hl
    by (rewrite length_app; done).
  assert (<[(length (body ++ [NL]) - 1)%nat := CR]> (body ++ [NL]) = body ++ [CR])
    as Hcr.
  { pose proof (insert_app_r body [NL] 0 CR) as Hins.
    rewrite Nat.add_0_r in Hins. rewrite Hl, Nat.add_sub. exact Hins. }
  assert (console_part cfg fd it s
          = match buf' ← nl_remap (nlmap cfg) (line_buffer (body ++ [NL]));
                  cstring buf' with
            | Ok bytes => (Next, emit (set_stdin s rest) [SysWrite fd bytes])
            | Undef f => (UB f, set_stdin s rest)
            end) as ->.
  { apply console_part_ready; [done|rewrite Hin; by destruct body|].
    rewrite Hin. apply fgets_line_newline; [done|lia]. }
  split; [|split].
  - intros ->. simpl. unfold line_buffer. by rewrite cstring_line.
  - intros ->. rewrite nl_remap_1_line by (done || lia). simpl.
    rewrite Hcr. unfold line_buffer. rewrite cstring_line; [done|].
    apply not_elem_of_app. split; [done|].
    intros Hx. apply list_elem_of_singleton in Hx. discriminate.
  - intros -> Hroom. rewrite nl_remap_2_line by (done || lia). simpl.
    rewrite Hcr.
    destruct (slack_room (body ++ [NL])) as [tail ->]; [lia|].
    replace ((body ++ [CR]) ++ NL :: NUL :: tail)
      with ((body ++ [CR; NL]) ++ NUL :: tail) by (by rewrite <- !app_assoc).
    rewrite cstring_line; [done|].
    apply not_elem_of_app. split; [done|].
    intros Hx. apply elem_of_cons in Hx as [Hx|Hx]; [discriminate|].
    apply list_elem_of_singleton in Hx. discriminate.
Qed.

(** A line without NUL that takes all the [BUFLEN - 1] bytes [fgets] can
    store: after mode 2 the array holds no NUL any more, and the
    [strlen] before [write] runs past its end. *)
Lemma console_part_full_line cfg fd it s line rest :
  console_ready it -> stdin s <> [] ->
  fgets_line (BUFLEN - 1) (stdin s) = (line, rest) ->
  length line = (BUFLEN - 1)%nat -> NUL ∉ line -> nlmap cfg = 2 ->
  nl_remap 2 (line_buffer line) = Ok (<[(BUFLEN - 2)%nat := CR]> line ++ [NL]) /\
  console_part cfg fd it s = (UB OobRead, set_stdin s rest).
Proof.
  intros Hready Hne Hline Hlen Hnul Hmode.
  assert (nl_remap 2 (line_buffer line)
          = Ok (<[(BUFLEN - 2)%nat := CR]> line ++ [NL])) as Hremap.
  { rewrite nl_remap_2_line by (done || unfold BUFLEN in *; lia).
    rewrite slack_full, Hlen by done. done. }
  split; [done|].
  rewrite (console_part_ready _ _ _ _ _ _ Hready Hne Hline), Hmode, Hremap.
  simpl. unfold cstring. rewrite strlen_no_nul; [done|].
  apply not_elem_of_app. split.
  - apply not_elem_of_insert; [done|apply NUL_CR].
  - intros Hx. apply list_elem_of_singleton in Hx. discriminate.
Qed.

(** C3, as amended.  For console input whose first [BUFLEN - 1] bytes
    hold neither a newline nor a NUL, [fgets] fills the buffer, and the
    two stores of mode 2 are at the indices [BUFLEN - 2] and
    [BUFLEN - 1]: both inside the array, the second on the terminating
    NUL.  The array is left without a NUL, so it is the [strlen] for the
    following [write] that reads past its end. *)
Theorem full_line_mode2_overwrites_terminator cfg fd it s :
  console_ready it -> nlmap cfg = 2 ->
  (BUFLEN - 1 <= length (stdin s))%nat ->
  NL ∉ take (BUFLEN - 1) (stdin s) -> NUL ∉ take (BUFLEN - 1) (stdin s) ->
  let line := take (BUFLEN - 1) (stdin s) in
  let rest := drop (BUFLEN - 1) (stdin s) in
  let buf1 := <[(BUFLEN - 2)%nat := CR]> line ++ [NUL] in
  let buf2 := <[(BUFLEN - 2)%nat := CR]> line ++ [NL] in
  fgets (zeroed BUFLEN) BUFLEN (stdin s) = Some (line ++ [NUL], rest) /\
  store (line ++ [NUL]) (Z.of_nat BUFLEN - 2) CR = Ok buf1 /\
  store buf1 (Z.of_nat BUFLEN - 1) NL = Ok buf2 /\
  nl_remap 2 (line ++ [NUL]) = Ok buf2 /\
  length buf2 = BUFLEN /\
  strlen buf2 = Undef OobRead /\
  console_part cfg fd it s = (UB OobRead, set_stdin s rest).
Proof.
  intros Hready Hmode Hlen Hnl Hnul line rest buf1 buf2.
  assert (length line = (BUFLEN - 1)%nat) as Hline
    by (unfold line; rewrite length_take_le; done).
  assert (stdin s <> []) as Hne
    by (intros Hs; rewrite Hs in Hlen; unfold BUFLEN in Hlen; simpl in Hlen; lia).
  pose proof (fgets_line_full _ _ Hlen Hnl) as Hfgets. fold line rest in Hfgets.
  assert (line_buffer line = line ++ [NUL]) as Hbuf
    by (unfold line_buffer; by rewrite slack_full).
  destruct (console_part_full_line cfg fd it s line rest) as [Hremap Hpart];
    try done.
  rewrite Hbuf in Hremap.
  assert (NUL ∉ buf2) as Hnul2.
  { apply not_elem_of_app. split.
    - apply not_elem_of_insert; [done|apply NUL_CR].
    - intros Hx. apply list_elem_of_singleton in Hx. discriminate. }
  repeat split; try done.
  - rewrite (fgets_some _ _ _ Hne Hfgets). by rewrite Hbuf.
  - replace (Z.of_nat BUFLEN - 2) with (Z.of_nat (BUFLEN - 2)) by (unfold BUFLEN; lia).
    rewrite store_inside by (rewrite length_app, Hline; unfold BUFLEN; simpl; lia).
    rewrite insert_app_l by (rewrite Hline; unfold BUFLEN; lia). done.
  - replace (Z.of_nat BUFLEN - 1) with (Z.of_nat (BUFLEN - 1)) by (unfold BUFLEN; lia).
    unfold buf1.
    rewrite store_inside
      by (rewrite length_app, length_insert, Hline; unfold BUFLEN; simpl; lia).
    pose proof (insert_app_r (<[(BUFLEN - 2)%nat := CR]> line) [NUL] 0 NL) as Hins.
    rewrite length_insert, Hline, Nat.add_0_r in Hins. by rewrite Hins.
  - unfold buf2. rewrite length_app, length_insert, Hline. done.
  - by apply strlen_no_nul.
Qed.

(** C4, at the lines the claim fails on.  A line of [BUFLEN - 1] bytes
    that ends in a newline fits in the buffer, but in mode 2 there is no
    room for the appended newline: it takes the place of the
    terminating NUL and the [strlen] for [write] runs past the array,
    instead of the line being written with CR and newline. *)
Theorem crnl_line_without_room cfg fd it s body rest :
  console_ready it -> nlmap cfg = 2 -> stdin s = body ++ NL :: rest ->
  NL ∉ body -> NUL ∉ body -> length body = (BUFLEN - 2)%nat ->
  console_part cfg fd it s = (UB OobRead, set_stdin s rest) /\
  console_part cfg fd it s
    <> (Next, emit (set_stdin s rest) [SysWrite fd (body ++ [CR; NL])]).
Proof.
  intros Hready Hmode Hin Hnl Hnul Hlen.
  assert (console_part cfg fd it s = (UB OobRead, set_stdin s rest)) as Hpart.
  { apply (console_part_full_line cfg fd it s (body ++ [NL]) rest); try done.
    - rewrite Hin. by destruct body.
    - rewrite Hin. apply fgets_line_newline; [done|]. rewrite Hlen. unfold BUFLEN. lia.
    - rewrite length_app, Hlen. done.
    - apply not_elem_of_app. split; [done|].
      intros Hx. apply list_elem_of_singleton in Hx. discriminate. }
  split; [done|]. by rewrite Hpart.
Qed.

(** ** Values of [-o] other than 0, 1 and 2 *)

Lemma nl_remap_other (n : Z) (buf : list ascii) :
  n ∉ [0; 1; 2] -> nl_remap n buf = Ok buf.
Proof.
  intros Hn. unfold nl_remap.
  destruct n as [|[p|[p|p|]|]|p]; try reflexivity;
    exfalso; apply Hn; by repeat constructor.
Qed.

Lemma loop_body_nlmap_other cfg fd it s :
  nlmap cfg ∉ [0; 1; 2] ->
  loop_body cfg fd it s = loop_body (set_nlmap cfg 0) fd it s.
Proof.
  intros Hn. unfold loop_body, console_part. simpl.
  destruct (_ <? 0); [done|]. destruct (_ =? 0); [done|].
  destruct (_ =? 0); [done|].
  destruct (fgets _ _ _) as [[buf rest]|]; [|done].
  by rewrite (nl_remap_other _ _ Hn).
Qed.

Lemma main_loop_nlmap_other cfg fd its : forall s,
  nlmap cfg ∉ [0; 1; 2] ->
  main_loop cfg fd its s = main_loop (set_nlmap cfg 0) fd its s.
Proof.
  induction its as [|it its IH]; intros s Hn; simpl; [done|].
  rewrite <- (loop_body_nlmap_other _ _ _ _ Hn).
  destruct (loop_body cfg fd it s) as [[| | |] s']; try done. by apply IH.
Qed.

(** C10.  A value of [-o] other than 0, 1 and 2 is taken as it is by the
    option loop, which goes on; with such a value the line read from the
    console is written unchanged, and the whole run is the run of
    mode 0. *)
Theorem nlmap_other_values_as_mode_0 (n : Z) :
  n ∉ [0; 1; 2] ->
  (forall optarg opts cfg, atoi optarg = n ->
     getopt_loop (("o"%char, optarg) :: opts) cfg
     = getopt_loop opts (set_nlmap cfg n)) /\
  (forall buf, nl_remap n buf = Ok buf /\ nl_remap n buf = nl_remap 0 buf) /\
  (forall cfg fd it s line rest,
     nlmap cfg = n -> console_ready it -> stdin s <> [] ->
     fgets_line (BUFLEN - 1) (stdin s) = (line, rest) -> NUL ∉ line ->
     console_part cfg fd it s
     = (Next, emit (set_stdin s rest) [SysWrite fd line])) /\
  (forall progname cfg w,
     nlmap cfg = n -> run progname cfg w = run progname (set_nlmap cfg 0) w).
Proof.
  intros Hn. repeat split.
  - intros optarg opts cfg <-. reflexivity.
  - by apply nl_remap_other.
  - by rewrite nl_remap_other.
  - intros cfg fd it s line rest Hmode Hready Hne Hline Hnul.
    rewrite (console_part_ready _ _ _ _ _ _ Hready Hne Hline), Hmode.
    rewrite nl_remap_other by done. simpl.
    unfold line_buffer. by rewrite cstring_line.
  - intros progname cfg w Hmode. unfold run. simpl.
    destruct (baud_of_bps (bps cfg)) as [baud|]; [|done].
    destruct (device cfg) as [|name]; [done|].
    unfold open_serial. cbv zeta.
    destruct (open_ret w <? 0) eqn:Hneg; rewrite ?Hneg; [done|].
    rewrite main_loop_nlmap_other by (by rewrite Hmode). reflexivity.
Qed.

(** ** Reads of nothing, and reads that fail *)

Lemma cstring_zeroed (n : nat) : (0 < n)%nat -> cstring (zeroed n) = Ok [].
Proof. destruct n as [|n]; [lia|]. done. Qed.

(** A read of no bytes is rendered like any other chunk and reported as
    a success. *)
Lemma read_reply_zero_bytes cfg fd it s :
  serial_read it = Some [] -> (read_reply cfg fd it s).1 = Ok 0.
Proof.
  intros Hread. unfold read_reply. rewrite Hread. simpl.
  destruct (negb (debug cfg =? 0)); [done|].
  destruct (negb (trace cfg =? 0)); [done|].
  by destruct (negb (annotate cfg =? 0)).
Qed.

(** What [read_reply] does with a read of no bytes, mode by mode: the
    empty chunk is rendered as any other (an empty debug line, a trace
    line with its times, the annotation of 0 bytes, the empty string),
    flushed, and 0 is returned. *)
Lemma read_reply_empty_chunk cfg fd it s :
  serial_read it = Some [] ->
  (debug cfg <> 0 ->
     read_reply cfg fd it s
     = (Ok 0, emit s [Stdout ("  " +:+ nl); Fflush])) /\
  (debug cfg = 0 -> trace cfg <> 0 ->
     let now := timestamp (clock it) in
     let diff := if lastts s =? 0 then 0 else (now - lastts s) mod 2 ^ 64 in
     let tot := if lastts s =? 0 then total s
                else (total s + diff) mod 2 ^ 64 in
     read_reply cfg fd it s
     = (Ok 0, emit (set_clock s now tot)
                [Stdout (printf_PRId64 tot +:+ " " +:+ printf_PRId64 diff +:+
                         " " +:+ nl); Fflush])) /\
  (debug cfg = 0 -> trace cfg = 0 -> annotate cfg <> 0 ->
     read_reply cfg fd it s
     = (Ok 0, emit s [Stdout ("read  0 bytes {}" +:+ nl); Fflush])) /\
  (debug cfg = 0 -> trace cfg = 0 -> annotate cfg = 0 ->
     read_reply cfg fd it s = (Ok 0, emit s [Stdout ""; Fflush])).
Proof.
  intros Hread. unfold read_reply. rewrite Hread.
  rewrite read_into_fits by (simpl; lia).
  split; [|split; [|split]].
  - intros Hd. destruct (debug cfg =? 0) eqn:Hz; [lia|]. reflexivity.
  - intros Hd Ht. cbv zeta. rewrite Hd.
    destruct (trace cfg =? 0) eqn:Hz; [lia|]. reflexivity.
  - intros Hd Ht Ha. rewrite Hd, Ht.
    destruct (annotate cfg =? 0) eqn:Hz; [lia|]. reflexivity.
  - intros Hd Ht Ha. rewrite Hd, Ht, Ha. reflexivity.
Qed.

(** C1, as amended.  When the serial descriptor is ready and [read]
    returns no bytes, [read_reply] renders the empty chunk in the
    active display mode (an empty debug line, a trace line with its
    two times, the annotation of 0 bytes, or the empty string), flushes
    and returns 0, and the loop goes on with the next [poll]: the
    process does not end there.  When [read] fails, [read_reply]
    reports the error and returns -1 without rendering anything. *)
Theorem serial_read_zero_bytes_continues cfg fd it its s s1 :
  0 < poll_ret it -> console_part cfg fd it s = (Next, s1) ->
  serial_ready it ->
  (serial_read it = Some [] ->
     (read_reply cfg fd it s1).1 = Ok 0 /\
     serial_part cfg fd it s1 = (Next, (read_reply cfg fd it s1).2) /\
     main_loop cfg fd (it :: its) s
     = main_loop cfg fd its (read_reply cfg fd it s1).2 /\
     (debug cfg <> 0 ->
        read_reply cfg fd it s1
        = (Ok 0, emit s1 [Stdout ("  " +:+ nl); Fflush])) /\
     (debug cfg = 0 -> trace cfg <> 0 ->
        let now := timestamp (clock it) in
        let diff :=
          if lastts s1 =? 0 then 0 else (now - lastts s1) mod 2 ^ 64 in
        let tot :=
          if lastts s1 =? 0 then total s1 else (total s1 + diff) mod 2 ^ 64 in
        read_reply cfg fd it s1
        = (Ok 0, emit (set_clock s1 now tot)
                   [Stdout (printf_PRId64 tot +:+ " " +:+
                            printf_PRId64 diff +:+ " " +:+ nl); Fflush])) /\
     (debug cfg = 0 -> trace cfg = 0 -> annotate cfg <> 0 ->
        read_reply cfg fd it s1
        = (Ok 0, emit s1 [Stdout ("read  0 bytes {}" +:+ nl); Fflush])) /\
     (debug cfg = 0 -> trace cfg = 0 -> annotate cfg = 0 ->
        read_reply cfg fd it s1 = (Ok 0, emit s1 [Stdout ""; Fflush]))) /\
  (serial_read it = None ->
     read_reply cfg fd it s1 = (Ok (-1), emit s1 [Perror "read"])).
Proof.
  intros Hpoll Hconsole (Herr & Hhup & Hin). split.
  - intros Hread.
    pose proof (read_reply_zero_bytes cfg fd it s1 Hread) as Hzero.
    assert (serial_part cfg fd it s1 = (Next, (read_reply cfg fd it s1).2))
      as Hserial.
    { unfold serial_part. rewrite Herr, Hhup. simpl.
      destruct (_ =? 0) eqn:Hz; [lia|]. simpl.
      destruct (read_reply cfg fd it s1) as [r s']. simpl in *. by rewrite Hzero. }
    split; [done|]. split; [done|].
    split; [|exact (read_reply_empty_chunk cfg fd it s1 Hread)].
    simpl. unfold loop_body.
    destruct (poll_ret it <? 0) eqn:Hneg; [lia|].
    destruct (poll_ret it =? 0) eqn:Hz; [lia|].
    by rewrite Hconsole, Hserial.
  - intros Hread. unfold read_reply. by rewrite Hread.
Qed.

(** ** Trace mode *)

Lemma timestamp_range (ts : Z * Z) : 0 <= timestamp ts < 2 ^ 63.
Proof.
  unfold timestamp.
  pose proof (Z.mod_pos_bound (ts.1 * 1000000000 + ts.2) (2 ^ 64)) as Hm.
  split.
  - apply Z.div_pos; lia.
  - apply Z.div_lt_upper_bound; lia.
Qed.

Lemma printf_PRId64_small (u : Z) : u < 2 ^ 63 -> printf_PRId64 u = printf_d u.
Proof.
  intros Hu. unfold printf_PRId64. destruct (u <? 2 ^ 63) eqn:Hlt; [done|lia].
Qed.

(** The first call: the [static] variables are still 0. *)
Lemma trace_show_reply_first (ts : Z * Z) (buf : list ascii) (n : nat) :
  (n <= length buf)%nat ->
  trace_show_reply 0 0 ts buf (Z.of_nat n)
  = ((timestamp ts, 0), Ok (trace_line 0 0 (take n buf))).
Proof.
  intros Hn. unfold trace_show_reply, trace_line. cbv zeta.
  rewrite Nat2Z.id, print_each_take, concat_show_ascii by done. done.
Qed.

(** A call after an earlier one at [last > 0]: the difference and the
    sum are exact, nothing wraps. *)
Lemma trace_show_reply_later (last tot : Z) (ts : Z * Z) (buf : list ascii)
    (n : nat) :
  (n <= length buf)%nat ->
  0 < last <= timestamp ts -> 0 <= tot <= last ->
  trace_show_reply last tot ts buf (Z.of_nat n)
  = ((timestamp ts, tot + (timestamp ts - last)),
     Ok (trace_line (tot + (timestamp ts - last)) (timestamp ts - last)
           (take n buf))).
Proof.
  intros Hn Hlast Htot. pose proof (timestamp_range ts) as Hts.
  unfold trace_show_reply, trace_line. cbv zeta.
  destruct (last =? 0) eqn:Hz; [lia|].
  rewrite (Z.mod_small (timestamp ts - last)) by lia.
  rewrite (Z.mod_small (tot + _)) by lia.
  rewrite Nat2Z.id, print_each_take, concat_show_ascii by done. simpl.
  rewrite !printf_PRId64_small by lia. done.
Qed.

Section TraceMode.
Variables (cfg : config) (fd : Z).
Hypothesis debug_off : debug cfg = 0.
Hypothesis trace_on : trace cfg <> 0.

Lemma read_reply_trace_first it s chunk :
  serial_read it = Some chunk -> (length chunk <= BUFLEN)%nat ->
  lastts s = 0 -> total s = 0 ->
  read_reply cfg fd it s
  = (Ok 0, emit (set_clock s (timestamp (clock it)) 0)
             [Stdout (trace_line 0 0 chunk); Fflush]).
Proof.
  intros Hread Hlen Hlast Htot. unfold read_reply.
  rewrite Hread, read_into_fits, debug_off, Hlast, Htot by done.
  destruct (trace cfg =? 0) eqn:Hz; [lia|]. cbn [negb Z.eqb].
  rewrite trace_show_reply_first by (rewrite length_app; lia).
  by rewrite take_app_length.
Qed.

Lemma read_reply_trace_later it s chunk :
  serial_read it = Some chunk -> (length chunk <= BUFLEN)%nat ->
  0 < lastts s <= timestamp (clock it) -> 0 <= total s <= lastts s ->
  let diff := timestamp (clock it) - lastts s in
  read_reply cfg fd it s
  = (Ok 0, emit (set_clock s (timestamp (clock it)) (total s + diff))
             [Stdout (trace_line (total s + diff) diff chunk); Fflush]).
Proof.
  intros Hread Hlen Hlast Htot diff. unfold read_reply.
  rewrite Hread, read_into_fits, debug_off by done.
  destruct (trace cfg =? 0) eqn:Hz; [lia|]. cbn [negb Z.eqb].
  rewrite trace_show_reply_later by (rewrite ?length_app; lia).
  by rewrite take_app_length.
Qed.

Lemma read_replies_trace_from (its : list iteration) : forall s,
  0 < lastts s -> 0 <= total s <= lastts s ->
  Forall delivers its ->
  Sorted Z.le (lastts s :: map (fun it => timestamp (clock it)) its) ->
  log (read_replies cfg fd its s)
  = log s ++ printed (trace_rendering_from (lastts s) (total s)
                        (map trace_event its)).
Proof.
  induction its as [|it its IH]; intros s Hlast Htot Hall Hsorted.
  - simpl. by rewrite app_nil_r.
  - apply Forall_cons in Hall as [(chunk & Hread & Hlen) Hall].
    apply Sorted_inv in Hsorted as [Hsorted Hhd].
    apply HdRel_inv in Hhd. simpl in Hhd, Hsorted.
    change (read_replies cfg fd (it :: its) s)
      with (read_replies cfg fd its (read_reply cfg fd it s).2).
    rewrite (read_reply_trace_later it s chunk) by (done || lia).
    rewrite IH; simpl; try done; try lia.
    unfold trace_event at 1. rewrite Hread. simpl.
    by rewrite <- app_assoc.
Qed.

(** C5, as amended.  In trace mode, for turns with monotonic time
    stamps of which the first is not 0, the calls of [read_reply] print
    what the specification says: 0 and 0 for the first event, then for
    every event the milliseconds since the event before it and the sum
    of these differences, as ["<total> <diff> "] before the ASCII
    rendering. *)
Theorem trace_mode_rendering it its s :
  lastts s = 0 -> total s = 0 ->
  Forall delivers (it :: its) ->
  timestamp (clock it) <> 0 ->
  Sorted Z.le (map (fun it => timestamp (clock it)) (it :: its)) ->
  log (read_replies cfg fd (it :: its) s)
  = log s ++ printed (trace_rendering (map trace_event (it :: its))).
Proof.
  intros Hlast Htot Hall Hfirst Hsorted.
  apply Forall_cons in Hall as [(chunk & Hread & Hlen) Hall].
  pose proof (timestamp_range (clock it)) as Hts.
  change (read_replies cfg fd (it :: its) s)
    with (read_replies cfg fd its (read_reply cfg fd it s).2).
  rewrite (read_reply_trace_first it s chunk) by done.
  rewrite read_replies_trace_from; simpl; try done; try lia.
  unfold trace_event at 1. rewrite Hread. simpl.
  by rewrite <- app_assoc.
Qed.

End TraceMode.

End Properties.


(** * Further properties of the program *)

Section MoreProperties.
Context `{Platform}.

(** ** The option loop *)

Lemma getopt_loop_setting c optarg opts cfg :
  c ∈ setting_options ->
  exists cfg', getopt_loop ((c, optarg) :: opts) cfg = getopt_loop opts cfg'.
Proof.
  unfold setting_options. intros Hc.
  repeat (apply elem_of_cons in Hc as [->|Hc]; [eexists; reflexivity|]).
  by apply elem_of_nil in Hc.
Qed.

Lemma getopt_loop_other c optarg opts cfg :
  c ∉ setting_options ->
  getopt_loop ((c, optarg) :: opts) cfg
  = Stop (if decide (c = "h"%char) then 0 else -1).
Proof.
  intros Hc.
  destruct c as [[] [] [] [] [] [] [] []]; try reflexivity;
    exfalso; apply Hc; apply (bool_decide_unpack _); vm_compute; exact I.
Qed.

(** X1.  The first option that is not one of [abcdfopt] ends [main]
    where it stands: the usage text is printed, [main] returns 0 for
    [h] and -1 for anything else, and nothing is opened, whatever the
    options before and after it were. *)
Theorem main_stops_at_first_other_option argv0 pre c optarg post w :
  Forall (fun o : ascii * string => o.1 ∈ setting_options) pre ->
  c ∉ setting_options ->
  main argv0 (pre ++ (c, optarg) :: post) w
  = {| result := Exited (if decide (c = "h"%char) then 0 else -1);
       calls := [usage (progname_of argv0)] |}.
Proof.
  intros Hpre Hc. unfold main.
  assert (forall cfg, getopt_loop (pre ++ (c, optarg) :: post) cfg
                      = Stop (if decide (c = "h"%char) then 0 else -1)) as ->;
    [|done].
  induction Hpre as [|[c' a'] pre Hc' Hpre IH]; intros cfg; simpl app.
  - by apply getopt_loop_other.
  - destruct (getopt_loop_setting c' a' (pre ++ (c, optarg) :: post) cfg Hc')
      as [cfg' ->].
    apply IH.
Qed.

(** X2.  The option loop runs to its end if and only if every option is
    one of [abcdfopt]. *)
Theorem getopt_loop_parsed_iff opts cfg0 :
  (exists cfg, getopt_loop opts cfg0 = Parsed cfg)
  <-> Forall (fun o : ascii * string => o.1 ∈ setting_options) opts.
Proof.
  revert cfg0. induction opts as [|[c optarg] opts IH]; intros cfg0.
  - split; [constructor|]. intros _. by eexists.
  - destruct (decide (c ∈ setting_options)) as [Hc|Hc].
    + destruct (getopt_loop_setting c optarg opts cfg0 Hc) as [cfg' ->].
      rewrite IH, Forall_cons. simpl. tauto.
    + rewrite getopt_loop_other by done. split.
      * intros [cfg Hcfg]. discriminate.
      * intros Hall. apply Forall_cons in Hall as [Hin _]. done.
Qed.

Lemma occurs_cons (c c' : ascii) (optarg : string) opts (v0 : Z) :
  flag_of c ((c', optarg) :: opts) v0
  = if decide (c = c') then 1 else flag_of c opts v0.
Proof.
  unfold flag_of. simpl.
  destruct (decide (c = c')) as [->|Hne].
  - destruct (decide _) as [|Hnot]; [done|]. destruct Hnot. by left.
  - destruct (decide (c ∈ opts.*1)) as [Hin|Hnot].
    + destruct (decide _) as [|Hnot]; [done|]. destruct Hnot. by right.
    + destruct (decide _) as [Hin|]; [|done].
      apply elem_of_cons in Hin as [|]; done.
Qed.

(** What the option loop leaves in every variable, from any start. *)
Lemma getopt_loop_result opts : forall cfg0 cfg,
  getopt_loop opts cfg0 = Parsed cfg ->
  annotate cfg = flag_of "a" opts (annotate cfg0) /\
  debug cfg = flag_of "d" opts (debug cfg0) /\
  trace cfg = flag_of "t" opts (trace cfg0) /\
  icrnl cfg = flag_of "c" opts (icrnl cfg0) /\
  hwfc cfg = flag_of "f" opts (hwfc cfg0) /\
  bps cfg = default (bps cfg0) (atoi <$> last_optarg "b" opts) /\
  nlmap cfg = default (nlmap cfg0) (atoi <$> last_optarg "o" opts) /\
  device cfg = default (device cfg0) (Ptr <$> last_optarg "p" opts).
Proof.
  induction opts as [|[c optarg] opts IH]; intros cfg0 cfg Hparse.
  - injection Hparse as <-. done.
  - destruct (decide (c ∈ setting_options)) as [Hc|Hc];
      [|rewrite getopt_loop_other in Hparse by done; discriminate].
    rewrite !occurs_cons. unfold setting_options in Hc.
    repeat (apply elem_of_cons in Hc as [->|Hc];
            [simpl in Hparse;
             apply IH in Hparse as (-> & -> & -> & -> & -> & -> & -> & ->);
             simpl; unfold flag_of;
             repeat match goal with
                    | |- context [last_optarg ?c opts] =>
                        destruct (last_optarg c opts)
                    end;
             repeat case_decide; done|]).
    by apply elem_of_nil in Hc.
Qed.

(** X3.  The flags after the option loop only tell whether their option
    occurred: each of [annotate], [debug], [trace], [icrnl] and [hwfc]
    is 1 if [a], [d], [t], [c] or [f] is among the options and 0 if
    not, wherever and however often it occurs. *)
Theorem getopt_loop_flags opts cfg :
  getopt_loop opts init_config = Parsed cfg ->
  annotate cfg = flag_of "a" opts 0 /\
  debug cfg = flag_of "d" opts 0 /\
  trace cfg = flag_of "t" opts 0 /\
  icrnl cfg = flag_of "c" opts 0 /\
  hwfc cfg = flag_of "f" opts 0.
Proof.
  intros Hparse.
  apply getopt_loop_result in Hparse as (Ha & Hd & Ht & Hc & Hf & _).
  done.
Qed.

(** X4.  For the options with an argument the last occurrence wins: the
    rate is [atoi] of the last [-b] argument and 115200 without [-b],
    the newline mapping is [atoi] of the last [-o] argument and 0
    without [-o], the device is the last [-p] argument and is left
    indeterminate without [-p]. *)
Theorem getopt_loop_last_argument_wins opts cfg :
  getopt_loop opts init_config = Parsed cfg ->
  bps cfg = default 115200 (atoi <$> last_optarg "b" opts) /\
  nlmap cfg = default 0 (atoi <$> last_optarg "o" opts) /\
  device cfg = default Indeterminate (Ptr <$> last_optarg "p" opts).
Proof.
  intros Hparse.
  apply getopt_loop_result in Hparse as (_ & _ & _ & _ & _ & Hb & Ho & Hp).
  done.
Qed.

(** ** The serial line *)

(** X5.  When the device cannot be opened, [main] reports it and returns
    -1: the line is neither flushed nor configured, and the loop does
    not start. *)
Theorem main_open_failure argv0 opts cfg k name w :
  getopt_loop opts init_config = Parsed cfg ->
  (bps cfg, k) ∈ baud_table -> device cfg = Ptr name -> open_ret w < 0 ->
  main argv0 opts w
  = {| result := Exited (-1);
       calls := [SysOpen name (Z.lor O_RDWR O_NOCTTY);
                 StderrErrno ("Cannot open " +:+ name +:+ " : ")] |}.
Proof.
  intros Hparse Hk Hdev Hneg. unfold main, run.
  rewrite Hparse, (baud_of_bps_supported _ _ Hk), Hdev.
  unfold open_serial. cbv zeta.
  destruct (open_ret w <? 0) eqn:Hlt; [|lia]. by rewrite Hlt.
Qed.

Lemma land_lor_same (a b : Z) : Z.land (Z.lor a b) b = b.
Proof.
  apply Z.bits_inj'. intros n Hn.
  rewrite Z.land_spec, Z.lor_spec.
  destruct (Z.testbit a n), (Z.testbit b n); reflexivity.
Qed.

(** X6.  In the attributes [open_serial] builds, CR-to-NL translation on
    input is on exactly when [icrnl] is set and hardware flow control
    exactly when [hwfc] is set; parity errors are always ignored and the
    receiver is always enabled.  The flag bits are those of a platform
    where [ICRNL] is apart from [IGNPAR] and [CRTSCTS] apart from the
    other control bits. *)
Theorem nterm_optional_bits cfg baud icrnl hwfc :
  ICRNL <> 0 -> Z.land IGNPAR ICRNL = 0 ->
  CRTSCTS <> 0 ->
  Z.land (Z.lor (Z.lor (Z.lor baud CS8) CLOCAL) CREAD) CRTSCTS = 0 ->
  let t := nterm cfg baud icrnl hwfc in
  (Z.land (c_iflag t) ICRNL <> 0 <-> icrnl <> 0) /\
  (Z.land (c_cflag t) CRTSCTS <> 0 <-> hwfc <> 0) /\
  Z.land (c_iflag t) IGNPAR = IGNPAR /\
  Z.land (c_cflag t) CREAD = CREAD /\
  c_oflag t = 0.
Proof.
  intros Hicrnl Hapart Hcrtscts Hfree t. unfold t, nterm. simpl.
  repeat split.
  - destruct (icrnl =? 0) eqn:Hz; [rewrite Hapart; lia|lia].
  - destruct (icrnl =? 0) eqn:Hz; [lia|]. intros _.
    by rewrite land_lor_same.
  - destruct (hwfc =? 0) eqn:Hz; [rewrite Hfree; lia|lia].
  - destruct (hwfc =? 0) eqn:Hz; [lia|]. intros _.
    by rewrite land_lor_same.
  - destruct (icrnl =? 0); [apply Z.land_diag|].
    rewrite Z.land_lor_distr_l, Z.land_diag.
    apply Z.bits_inj'. intros n Hn.
    rewrite Z.lor_spec, Z.land_spec.
    destruct (Z.testbit IGNPAR n), (Z.testbit ICRNL n); reflexivity.
  - destruct (hwfc =? 0); [apply land_lor_same|].
    apply Z.bits_inj'. intros n Hn.
    rewrite Z.land_spec, !Z.lor_spec.
    destruct (Z.testbit baud n), (Z.testbit CS8 n), (Z.testbit CLOCAL n),
      (Z.testbit CREAD n), (Z.testbit CRTSCTS n); reflexivity.
Qed.

(** ** Replies *)

(** X7.  The display flags are tried in the order debug, trace,
    annotate: with [debug] set the other two make no difference, and
    the variables of the trace clock are left alone; with [debug] clear
    and [trace] set, [annotate] makes no difference. *)
Theorem read_reply_mode_precedence cfg fd it s :
  (debug cfg <> 0 ->
     read_reply cfg fd it s
       = read_reply (with_display cfg 0 (debug cfg) 0) fd it s /\
     lastts (read_reply cfg fd it s).2 = lastts s /\
     total (read_reply cfg fd it s).2 = total s) /\
  (debug cfg = 0 -> trace cfg <> 0 ->
     read_reply cfg fd it s
       = read_reply (with_display cfg 0 0 (trace cfg)) fd it s).
Proof.
  split.
  - intros Hd. unfold read_reply.
    destruct (serial_read it) as [data|]; [|done].
    destruct (read_into _ _) as [reply cnt]. simpl.
    destruct (debug cfg =? 0) eqn:Hz; [lia|]. simpl.
    by destruct (debug_show_reply reply cnt).
  - intros Hd Ht. unfold read_reply.
    destruct (serial_read it) as [data|]; [|done].
    destruct (read_into _ _) as [reply cnt]. simpl.
    rewrite Hd. simpl.
    destruct (trace cfg =? 0) eqn:Hz; [lia|]. done.
Qed.

Lemma read_into_zeroed (data : list ascii) :
  read_into (zeroed BUFLEN) data
  = (take BUFLEN data ++ drop (length (take BUFLEN data)) (zeroed BUFLEN),
     Z.of_nat (length (take BUFLEN data))).
Proof. unfold read_into, zeroed. by rewrite length_replicate. Qed.

(** X8.  In debug and trace mode [read_reply] is defined for whatever
    [read] delivers: only the [cnt] bytes read are looked at.  In debug
    mode the text is the debug rendering of the bytes read, at most
    [BUFLEN] of them. *)
Theorem read_reply_debug_trace_defined cfg fd it s data :
  serial_read it = Some data ->
  (debug cfg <> 0 ->
     read_reply cfg fd it s
     = (Ok 0, emit s [Stdout (debug_rendering (take BUFLEN data) +:+ nl);
                      Fflush])) /\
  (debug cfg = 0 -> trace cfg <> 0 -> (read_reply cfg fd it s).1 = Ok 0).
Proof.
  intros Hread. split.
  - intros Hd. unfold read_reply. rewrite Hread, read_into_zeroed.
    destruct (debug cfg =? 0) eqn:Hz; [lia|]. cbn [negb].
    rewrite debug_show_reply_take by (rewrite length_app; lia).
    by rewrite take_app_length.
  - intros Hd Ht. unfold read_reply. rewrite Hread, read_into_zeroed, Hd.
    destruct (trace cfg =? 0) eqn:Hz; [lia|]. cbn [negb Z.eqb].
    unfold trace_show_reply.
    rewrite Nat2Z.id, print_each_take by (rewrite length_app; lia). done.
Qed.

(** X9.  In plain and annotate mode a read that fills [reply] with
    bytes other than NUL leaves no terminator in the array, and the
    [%s] conversion runs past its end. *)
Theorem read_reply_full_chunk_unterminated cfg fd it s data :
  serial_read it = Some data -> (BUFLEN <= length data)%nat ->
  NUL ∉ take BUFLEN data -> debug cfg = 0 -> trace cfg = 0 ->
  read_reply cfg fd it s = (Undef OobRead, s).
Proof.
  intros Hread Hlen Hnul Hd Ht. unfold read_reply.
  rewrite Hread, read_into_zeroed, Hd, Ht. cbn [negb Z.eqb].
  rewrite length_take_le by done.
  assert (drop BUFLEN (zeroed BUFLEN) = []) as ->
    by (apply drop_ge; unfold zeroed; by rewrite length_replicate).
  rewrite app_nil_r. unfold cstring.
  rewrite strlen_no_nul by done. simpl.
  by destruct (negb (annotate cfg =? 0)).
Qed.

(** X10.  A chunk shorter than [BUFLEN] with no NUL in it is printed
    whole and with nothing after it in plain mode, and between the
    braces in annotate mode: the zeroed [reply] ends the string where
    the chunk ends. *)
Theorem read_reply_short_chunk_exact cfg fd it s data :
  serial_read it = Some data -> (length data < BUFLEN)%nat ->
  NUL ∉ data -> debug cfg = 0 -> trace cfg = 0 ->
  (annotate cfg = 0 ->
     read_reply cfg fd it s
     = (Ok 0, emit s [Stdout (string_of_list_ascii data); Fflush])) /\
  (annotate cfg <> 0 ->
     read_reply cfg fd it s
     = (Ok 0,
        emit s [Stdout ("read " +:+ printf_2d (Z.of_nat (length data)) +:+
                        " bytes {" +:+ string_of_list_ascii data +:+
                        "}" +:+ nl); Fflush])).
Proof.
  intros Hread Hlen Hnul Hd Ht.
  assert (cstring (data ++ drop (length data) (zeroed BUFLEN)) = Ok data)
    as Hstr.
  { unfold zeroed. rewrite drop_replicate.
    destruct (BUFLEN - length data)%nat as [|k] eqn:Hk; [lia|].
    simpl. by apply cstring_line. }
  split; intros Hann; unfold read_reply;
    rewrite Hread, read_into_fits, Hd, Ht by lia; cbn [negb Z.eqb].
  - rewrite Hann. cbn [negb Z.eqb]. by rewrite Hstr.
  - destruct (annotate cfg =? 0) eqn:Ha; [lia|]. cbn [negb]. by rewrite Hstr.
Qed.

(** ** What the loop does to the outside *)

Lemma strlen_ok (buf : list ascii) (n : Z) : strlen buf = Ok n -> NUL ∈ buf.
Proof.
  revert n. induction buf as [|c buf IH]; intros n Hn; [discriminate|].
  simpl in Hn. destruct (decide (c = NUL)) as [->|Hc]; [by left|].
  destruct (strlen buf) as [m|f] eqn:Hm; [|discriminate].
  right. by apply (IH m).
Qed.

Lemma before_nul_no_nul (buf : list ascii) : NUL ∉ before_nul buf.
Proof.
  induction buf as [|c buf IH]; simpl; [apply not_elem_of_nil|].
  destruct (decide (c = NUL)); [apply not_elem_of_nil|].
  apply not_elem_of_cons. by split.
Qed.

Lemma before_nul_shorter (buf : list ascii) :
  NUL ∈ buf -> (length (before_nul buf) < length buf)%nat.
Proof.
  induction buf as [|c buf IH]; intros Hin; [by apply elem_of_nil in Hin|].
  simpl. destruct (decide (c = NUL)); simpl; [lia|].
  apply elem_of_cons in Hin as [|Hin]; [congruence|].
  specialize (IH Hin). lia.
Qed.

(** The bytes taken from an array as a C string hold no NUL and are
    fewer than the array has elements. *)
Lemma cstring_ok (buf bytes : list ascii) :
  cstring buf = Ok bytes ->
  (NUL ∉ bytes) /\ (length bytes < length buf)%nat.
Proof.
  intros Hstr.
  assert (NUL ∈ buf) as Hin.
  { unfold cstring in Hstr. destruct (strlen buf) as [n|f] eqn:Hn;
      [by apply (strlen_ok _ n)|discriminate]. }
  rewrite cstring_before_nul in Hstr by done. injection Hstr as <-.
  split; [apply before_nul_no_nul|by apply before_nul_shorter].
Qed.

Lemma store_length (buf buf' : list ascii) (i : Z) (c : ascii) :
  store buf i c = Ok buf' -> length buf' = length buf.
Proof.
  unfold store. destruct (decide _); [|discriminate].
  intros [= <-]. apply length_insert.
Qed.

Lemma nl_remap_length (n : Z) (buf buf' : list ascii) :
  nl_remap n buf = Ok buf' -> length buf' = length buf.
Proof.
  unfold nl_remap.
  destruct n as [|[p|[p|p|]|]|p]; try (by intros [= <-]).
  - destruct (strlen buf) as [n|f]; [simpl|discriminate].
    destruct (store buf _ CR) as [buf1|f] eqn:H1; [simpl|discriminate].
    destruct (strlen buf1) as [n1|f]; [simpl|discriminate].
    intros H2. apply store_length in H1, H2. congruence.
  - destruct (strlen buf) as [n|f]; [simpl|discriminate].
    apply store_length.
Qed.

Lemma fgets_line_length (n : nat) : forall stream,
  (length (fgets_line n stream).1 <= n)%nat.
Proof.
  induction n as [|n IH]; intros stream; simpl; [lia|].
  destruct stream as [|c stream]; simpl; [lia|].
  destruct (decide (c = NL)); simpl; [lia|].
  specialize (IH stream). destruct (fgets_line n stream). simpl in *. lia.
Qed.

Lemma fgets_line_split (n : nat) : forall stream line rest,
  fgets_line n stream = (line, rest) -> stream = line ++ rest.
Proof.
  induction n as [|n IH]; intros stream line rest Hline; simpl in Hline.
  - by injection Hline as <- <-.
  - destruct stream as [|c stream]; [by injection Hline as <- <-|].
    destruct (decide (c = NL)); [by injection Hline as <- <-|].
    destruct (fgets_line n stream) as [line' rest'] eqn:Hrec.
    injection Hline as <- <-. simpl. f_equal. by apply IH.
Qed.

Lemma fgets_line_nonempty (n : nat) (c : ascii) (stream : list ascii) :
  (0 < length (fgets_line (S n) (c :: stream)).1)%nat.
Proof.
  simpl. destruct (decide (c = NL)); simpl; [lia|].
  destruct (fgets_line n stream). simpl. lia.
Qed.

(** What [fgets] answers: nothing at end of file, else a line buffer
    of [BUFLEN] bytes for a line that is the start of the stream. *)
Lemma fgets_cases (stream : list ascii) :
  (stream = [] /\ fgets (zeroed BUFLEN) BUFLEN stream = None) \/
  (exists line rest,
     stream = line ++ rest /\ (0 < length line < BUFLEN)%nat /\
     fgets_line (BUFLEN - 1) stream = (line, rest) /\
     fgets (zeroed BUFLEN) BUFLEN stream = Some (line_buffer line, rest)).
Proof.
  destruct stream as [|c stream]; [by left|]. right.
  destruct (fgets_line (BUFLEN - 1) (c :: stream)) as [line rest] eqn:Hline.
  exists line, rest.
  pose proof (fgets_line_length (BUFLEN - 1) (c :: stream)) as Hlen.
  rewrite Hline in Hlen. simpl in Hlen.
  split; [by apply (fgets_line_split (BUFLEN - 1))|]. split.
  - split; [|unfold BUFLEN in *; lia].
    pose proof (fgets_line_nonempty 1022 c stream) as Hpos.
    change (S 1022) with (BUFLEN - 1)%nat in Hpos. by rewrite Hline in Hpos.
  - split; [done|]. by apply fgets_some.
Qed.

Lemma line_buffer_length (line : list ascii) :
  (length line < BUFLEN)%nat -> length (line_buffer line) = BUFLEN.
Proof.
  intros Hlen. unfold line_buffer, slack, zeroed.
  rewrite length_app, length_cons, length_drop, length_replicate. lia.
Qed.

Lemma written_app (l1 l2 : list effect) :
  written (l1 ++ l2) = written l1 ++ written l2.
Proof.
  induction l1 as [|e l1 IH]; [done|].
  destruct e; simpl; rewrite ?IH; try done. by rewrite app_assoc.
Qed.

Lemma flushed_app_bounded (n : nat) : forall l1 l2,
  (length l1 <= n)%nat ->
  flushed l1 = true -> flushed l2 = true -> flushed (l1 ++ l2) = true.
Proof.
  induction n as [|n IH]; intros l1 l2 Hlen H1 H2.
  - destruct l1; [done|simpl in Hlen; lia].
  - destruct l1 as [|e l1]; [done|]. simpl in Hlen.
    destruct e; simpl in *; try (apply IH; [lia|done|done]).
    destruct l1 as [|e' l1]; [discriminate|].
    destruct e'; simpl in *; try discriminate.
    apply IH; [lia|done|done].
Qed.

Lemma flushed_app (l1 l2 : list effect) :
  flushed l1 = true -> flushed l2 = true -> flushed (l1 ++ l2) = true.
Proof. by apply (flushed_app_bounded (length l1)). Qed.

Lemma adds_nothing fd s : adds fd s s [].
Proof. unfold adds. by rewrite app_nil_r. Qed.

Lemma read_reply_adds cfg fd it s :
  exists es, adds fd s (read_reply cfg fd it s).2 es /\ written es = [] /\
             stdin (read_reply cfg fd it s).2 = stdin s.
Proof.
  unfold read_reply. destruct (serial_read it) as [data|].
  - destruct (read_into _ _) as [reply cnt].
    destruct (negb (debug cfg =? 0)).
    { destruct (debug_show_reply _ _) as [text|f]; simpl.
      - exists [Stdout text; Fflush]. repeat split; by repeat constructor.
      - exists []. split; [apply adds_nothing|done]. }
    destruct (negb (trace cfg =? 0)).
    { destruct (trace_show_reply _ _ _ _ _) as [[last' tot'] [text|f]]; simpl.
      - exists [Stdout text; Fflush]. repeat split; by repeat constructor.
      - exists []. split; [|done]. unfold adds. simpl. by rewrite app_nil_r. }
    destruct (negb (annotate cfg =? 0));
      destruct (cstring reply) as [str|f]; simpl;
      try (exists []; split; [apply adds_nothing|done]);
      eexists [Stdout _; Fflush]; repeat split; by repeat constructor.
  - exists [Perror "read"]. repeat split; by repeat constructor.
Qed.

Lemma serial_part_adds cfg fd it s :
  exists es, adds fd s (serial_part cfg fd it s).2 es /\ written es = [] /\
             stdin (serial_part cfg fd it s).2 = stdin s /\
             match (serial_part cfg fd it s).1 with
             | Brk => False
             | Ret r => r = -1
             | _ => True
             end.
Proof.
  unfold serial_part.
  destruct (negb _).
  { eexists [Stderr _]. repeat split; by repeat constructor. }
  destruct (negb _).
  { eexists [Stderr _]. repeat split; by repeat constructor. }
  destruct (negb _).
  - destruct (read_reply_adds cfg fd it s) as (es & Hadds & Hw & Hin).
    exists es. by destruct (read_reply cfg fd it s) as [[r|f] s'].
  - exists []. split; [apply adds_nothing|done].
Qed.

Lemma console_part_adds cfg fd it s :
  exists es, adds fd s (console_part cfg fd it s).2 es /\
             match (console_part cfg fd it s).1 with
             | Ret _ => False
             | _ => True
             end.
Proof.
  unfold console_part. destruct (_ =? 0).
  { exists []. split; [apply adds_nothing|done]. }
  destruct (fgets_cases (stdin s))
    as [[Hempty ->]|(line & rest & Hsplit & Hlen & _ & ->)].
  { exists []. split; [apply adds_nothing|done]. }
  destruct (nl_remap (nlmap cfg) (line_buffer line)) as [buf'|f] eqn:Hremap;
    simpl.
  - destruct (cstring buf') as [bytes|f] eqn:Hstr; simpl.
    + exists [SysWrite fd bytes]. split; [|done].
      apply cstring_ok in Hstr as [Hnul Hshort].
      apply nl_remap_length in Hremap.
      rewrite Hremap, line_buffer_length in Hshort by lia.
      unfold adds. simpl. split; [done|]. split; [|done].
      constructor; [|constructor]. simpl. done.
    + exists []. split; [|done]. unfold adds. simpl. by rewrite app_nil_r.
  - exists []. split; [|done]. unfold adds. simpl. by rewrite app_nil_r.
Qed.

Lemma adds_trans fd s s1 s2 es1 es2 :
  adds fd s s1 es1 -> adds fd s1 s2 es2 -> adds fd s s2 (es1 ++ es2).
Proof.
  intros (Hl1 & Hf1 & Hs1) (Hl2 & Hf2 & Hs2). repeat split.
  - by rewrite Hl2, Hl1, app_assoc.
  - by apply Forall_app.
  - by apply flushed_app.
Qed.

Lemma loop_body_adds cfg fd it s :
  exists es, adds fd s (loop_body cfg fd it s).2 es /\
             match (loop_body cfg fd it s).1 with
             | Ret r => r = -1
             | _ => True
             end.
Proof.
  unfold loop_body. destruct (_ <? 0).
  { eexists [Perror _]. repeat split; by repeat constructor. }
  destruct (_ =? 0).
  { eexists [Perror _]. repeat split; by repeat constructor. }
  destruct (console_part_adds cfg fd it s) as (es1 & Hadds1 & Hctl1).
  destruct (console_part cfg fd it s) as [[| |r|f] s1]; simpl in *;
    try (by exists es1).
  destruct (serial_part_adds cfg fd it s1) as (es2 & Hadds2 & _ & _ & Hctl2).
  exists (es1 ++ es2). split; [by apply (adds_trans fd s s1)|].
  by destruct (serial_part cfg fd it s1) as [[| |r|f] s2].
Qed.

Lemma main_loop_adds cfg fd its : forall s,
  exists es, calls (main_loop cfg fd its s) = log s ++ es /\
             Forall (loop_effect fd) es /\ flushed es = true /\
             forall r, result (main_loop cfg fd its s) = Exited r ->
                       r = 0 \/ r = -1.
Proof.
  induction its as [|it its IH]; intros s; simpl.
  - exists []. rewrite app_nil_r. by repeat split.
  - destruct (loop_body_adds cfg fd it s) as (es & (Hlog & Hall & Hfl) & Hctl).
    destruct (loop_body cfg fd it s) as [[| |r|f] s']; simpl in *.
    + destruct (IH s') as (es' & Hcalls & Hall' & Hfl' & Hres).
      exists (es ++ es'). rewrite Hcalls, Hlog, app_assoc.
      repeat split; [by apply Forall_app|by apply flushed_app|done].
    + exists es. repeat split; try done. intros r [= <-]. by left.
    + exists es. repeat split; try done. intros r' [= <-]. by right.
    + exists es. by repeat split.
Qed.

(** X11.  In a run with no undefined behaviour (no access outside
    [buf] or [reply]), once the line is open and configured, all [main]
    does to the outside is write to the descriptor [open] returned,
    print, flush and report: the device is opened and its attributes
    are set once, every write to the line carries at most [BUFLEN - 1]
    bytes and no NUL, and the run is waiting in [poll] or has returned
    0 or -1.  (A run that does meet undefined behaviour, such as the
    one of C4, can write more.) *)
Theorem main_after_configuration argv0 opts cfg k name w :
  getopt_loop opts init_config = Parsed cfg ->
  (bps cfg, k) ∈ baud_table -> device cfg = Ptr name -> 0 <= open_ret w ->
  (forall f, result (main argv0 opts w) <> Undefined f) ->
  (result (main argv0 opts w) = Waiting \/
   result (main argv0 opts w) = Exited 0 \/
   result (main argv0 opts w) = Exited (-1)) /\
  exists es,
    calls (main argv0 opts w)
    = [SysOpen name (Z.lor O_RDWR O_NOCTTY);
       SysTcflush (open_ret w) TCIFLUSH;
       SysTcsetattr (open_ret w) TCSANOW (nterm cfg k (icrnl cfg) (hwfc cfg))]
      ++ es /\
    Forall (loop_effect (open_ret w)) es.
Proof.
  intros Hparse Hk Hdev Hfd. unfold main, run.
  rewrite Hparse, (baud_of_bps_supported _ _ Hk), Hdev.
  unfold open_serial. cbv zeta.
  destruct (open_ret w <? 0) eqn:Hlt; [lia|]. rewrite Hlt.
  destruct (main_loop_adds cfg (open_ret w) (iterations w)
              {| stdin := console w; lastts := 0; total := 0;
                 log := [SysOpen name (Z.lor O_RDWR O_NOCTTY);
                         SysTcflush (open_ret w) TCIFLUSH;
                         SysTcsetattr (open_ret w) TCSANOW
                           (nterm cfg k (icrnl cfg) (hwfc cfg))] |})
    as (es & Hcalls & Hall & _ & Hexit).
  intros Hdefined. split; [|exists es; by split].
  destruct (result (main_loop _ _ _ _)) as [r| |f] eqn:Hres.
  - destruct (Hexit r eq_refl) as [-> | ->]; [right; by left|right; by right].
  - by left.
  - by destruct (Hdefined f).
Qed.

(** X12.  In every run of [main], whatever the options and the world,
    each text sent to standard output is followed at once by a flush. *)
Theorem main_stdout_flushed argv0 opts w :
  flushed (calls (main argv0 opts w)) = true.
Proof.
  unfold main, run, usage.
  destruct (getopt_loop opts init_config) as [cfg|r]; [|done].
  destruct (baud_of_bps (bps cfg)) as [baud|]; [|done].
  destruct (device cfg) as [|name]; [done|].
  unfold open_serial. cbv zeta.
  destruct (open_ret w <? 0) eqn:Hlt; rewrite ?Hlt; [done|].
  destruct (main_loop_adds cfg (open_ret w) (iterations w)
              {| stdin := console w; lastts := 0; total := 0;
                 log := [SysOpen name (Z.lor O_RDWR O_NOCTTY);
                         SysTcflush (open_ret w) TCIFLUSH;
                         SysTcsetattr (open_ret w) TCSANOW
                           (nterm cfg baud (icrnl cfg) (hwfc cfg))] |})
    as (es & -> & _ & Hfl & _).
  by apply flushed_app.
Qed.

Lemma getopt_loop_stop opts : forall cfg r,
  getopt_loop opts cfg = Stop r -> r = 0 \/ r = -1.
Proof.
  induction opts as [|[c optarg] opts IH]; intros cfg r Hstop; [discriminate|].
  destruct (decide (c ∈ setting_options)) as [Hc|Hc].
  - destruct (getopt_loop_setting c optarg opts cfg Hc) as [cfg' Heq].
    rewrite Heq in Hstop. by apply (IH cfg').
  - rewrite getopt_loop_other in Hstop by done. injection Hstop as <-.
    destruct (decide (c = "h"%char)); [by left|by right].
Qed.

(** X13.  [main] only ever returns 0 or -1: the exit status of the
    process is 0 or 255. *)
Theorem main_returns_0_or_minus_1 argv0 opts w r :
  result (main argv0 opts w) = Exited r ->
  (r = 0 \/ r = -1) /\ (exit_status r = 0 \/ exit_status r = 255).
Proof.
  intros Hres.
  assert (r = 0 \/ r = -1) as Hr.
  { unfold main, run in Hres.
    destruct (getopt_loop opts init_config) as [cfg|r'] eqn:Hparse;
      [|injection Hres as <-; by apply (getopt_loop_stop opts init_config)].
    destruct (baud_of_bps (bps cfg)) as [baud|];
      [|injection Hres as <-; by right].
    destruct (device cfg) as [|name]; [discriminate|].
    unfold open_serial in Hres. cbv zeta in Hres.
    destruct (open_ret w <? 0) eqn:Hlt; rewrite ?Hlt in Hres;
      [injection Hres as <-; by right|].
    edestruct main_loop_adds as (es & _ & _ & _ & Hexit). by apply Hexit. }
  split; [done|]. destruct Hr as [-> | ->]; [by left|by right].
Qed.

(** ** More on console lines *)

Lemma nl_remap_not_1_2 (n : Z) (buf : list ascii) :
  n ∉ [1; 2] -> nl_remap n buf = Ok buf.
Proof.
  intros Hn. unfold nl_remap.
  destruct n as [|[p|[p|p|]|]|p]; try reflexivity;
    exfalso; apply Hn; by repeat constructor.
Qed.

Lemma before_nul_terminated (line tail : list ascii) :
  before_nul (line ++ NUL :: tail) = before_nul line.
Proof.
  induction line as [|c line IH]; simpl.
  - by destruct (decide (NUL = NUL)).
  - destruct (decide (c = NUL)); [done|]. by rewrite IH.
Qed.

(** X14.  Without remapping (mode 0, or a value of [-o] other than 1
    and 2) the bytes written for a line are the bytes of the line
    before its first NUL: the rest of a line with a NUL in it is taken
    from the console and never sent. *)
Theorem console_line_truncated_at_nul cfg fd it s line rest :
  console_ready it -> stdin s <> [] ->
  fgets_line (BUFLEN - 1) (stdin s) = (line, rest) ->
  nlmap cfg ∉ [1; 2] ->
  console_part cfg fd it s
  = (Next, emit (set_stdin s rest) [SysWrite fd (before_nul line)]).
Proof.
  intros Hready Hne Hline Hmode.
  rewrite (console_part_ready _ _ _ _ _ _ Hready Hne Hline).
  rewrite nl_remap_not_1_2 by done. simpl.
  unfold line_buffer. rewrite cstring_before_nul.
  - by rewrite before_nul_terminated.
  - apply elem_of_app. right. by left.
Qed.

Lemma fgets_line_bounds (stream line rest : list ascii) :
  stream <> [] -> fgets_line (BUFLEN - 1) stream = (line, rest) ->
  (0 < length line <= BUFLEN - 1)%nat.
Proof.
  intros Hne Hline.
  destruct (fgets_cases stream)
    as [[Hempty _]|(line' & rest' & _ & Hlen & Hline' & _)]; [done|].
  rewrite Hline in Hline'. injection Hline' as <- <-. lia.
Qed.

Lemma insert_last_byte (line : list ascii) (c : ascii) :
  (0 < length line)%nat ->
  <[(length line - 1)%nat := c]> line = take (length line - 1) line ++ [c].
Proof.
  intros Hlen. rewrite insert_take_drop by lia.
  replace (S (length line - 1)) with (length line) by lia.
  by rewrite drop_all.
Qed.

(** X15.  Modes 1 and 2 replace the last byte of the line [fgets]
    returned, whatever it is: a line without a newline at its end (the
    first [BUFLEN - 1] bytes of a longer line, or the last line of an
    input that does not end in a newline) loses its last byte to the
    carriage return. *)
Theorem remap_replaces_last_byte cfg fd it s line rest :
  console_ready it -> stdin s <> [] ->
  fgets_line (BUFLEN - 1) (stdin s) = (line, rest) -> NUL ∉ line ->
  (nlmap cfg = 1 ->
     console_part cfg fd it s
     = (Next, emit (set_stdin s rest)
                [SysWrite fd (take (length line - 1) line ++ [CR])])) /\
  (nlmap cfg = 2 -> (length line < BUFLEN - 1)%nat ->
     console_part cfg fd it s
     = (Next, emit (set_stdin s rest)
                [SysWrite fd (take (length line - 1) line ++ [CR; NL])])).
Proof.
  intros Hready Hne Hline Hnul.
  pose proof (fgets_line_bounds _ _ _ Hne Hline) as Hlen.
  assert (NUL ∉ take (length line - 1) line ++ [CR]) as Hnul'.
  { rewrite <- insert_last_byte by lia.
    apply not_elem_of_insert; [done|apply NUL_CR]. }
  rewrite (console_part_ready _ _ _ _ _ _ Hready Hne Hline). split.
  - intros ->. rewrite nl_remap_1_line by done. simpl.
    rewrite insert_last_byte by lia. unfold line_buffer.
    by rewrite cstring_line.
  - intros -> Hroom. rewrite nl_remap_2_line by done. simpl.
    rewrite insert_last_byte by lia.
    destruct (slack_room line) as [tail ->]; [lia|].
    replace ((take (length line - 1) line ++ [CR]) ++ NL :: NUL :: tail)
      with ((take (length line - 1) line ++ [CR; NL]) ++ NUL :: tail)
      by (by rewrite <- !app_assoc).
    rewrite cstring_line; [done|].
    replace (take (length line - 1) line ++ [CR; NL])
      with ((take (length line - 1) line ++ [CR]) ++ [NL])
      by (by rewrite <- app_assoc).
    apply not_elem_of_app. split; [done|].
    intros Hx. apply list_elem_of_singleton in Hx. discriminate.
Qed.

(** X16.  When the console input starts with a NUL byte the line is an
    empty C string, and the store at [buf[strlen(buf)-1]] of modes 1
    and 2 is a store at index [SIZE_MAX], outside the array. *)
Theorem leading_nul_store_out_of_bounds cfg fd it s input :
  console_ready it -> stdin s = NUL :: input ->
  nlmap cfg = 1 \/ nlmap cfg = 2 ->
  (console_part cfg fd it s).1 = UB (OobWrite (2 ^ 64 - 1)).
Proof.
  intros Hready Hin Hmode.
  destruct (fgets_cases (stdin s))
    as [[Hempty _]|(line & rest & Hsplit & Hlen & Hline & _)];
    [rewrite Hin in Hempty; discriminate|].
  assert (stdin s <> []) as Hne by (rewrite Hin; discriminate).
  rewrite (console_part_ready _ _ _ _ _ _ Hready Hne Hline).
  destruct line as [|c line]; [simpl in Hlen; lia|].
  rewrite Hin in Hsplit. injection Hsplit as <- _.
  assert (store (line_buffer (NUL :: line)) (size_sub 0 1) CR
          = Undef (OobWrite (2 ^ 64 - 1))) as Hstore.
  { assert (size_sub 0 1 = 2 ^ 64 - 1) as -> by reflexivity.
    unfold store. rewrite line_buffer_length by lia.
    destruct (decide _) as [Hin'|_]; [|done].
    change (Z.of_nat BUFLEN) with 1024 in Hin'. lia. }
  assert (strlen (line_buffer (NUL :: line)) = Ok 0) as Hzero by reflexivity.
  unfold nl_remap.
  destruct Hmode as [-> | ->]; rewrite Hzero; cbn [mbind res_bind];
    rewrite Hstore; done.
Qed.

Lemma console_part_unmapped cfg fd it s :
  nlmap cfg ∉ [1; 2] -> NUL ∉ stdin s ->
  console_part cfg fd it s = (Next, s) \/
  (stdin s = [] /\ console_part cfg fd it s = (Brk, s)) \/
  (exists line rest,
     stdin s = line ++ rest /\
     console_part cfg fd it s
     = (Next, emit (set_stdin s rest) [SysWrite fd line])).
Proof.
  intros Hmode Hnul. unfold console_part.
  destruct (_ =? 0); [by left|]. right.
  destruct (fgets_cases (stdin s))
    as [[Hempty ->]|(line & rest & Hsplit & Hlen & _ & ->)]; [by left|].
  right. exists line, rest. split; [done|].
  rewrite nl_remap_not_1_2 by done. simpl.
  unfold line_buffer. rewrite cstring_line; [done|].
  rewrite Hsplit in Hnul. by apply not_elem_of_app in Hnul as [? _].
Qed.

(** X17.  Without remapping, and for console input with no NUL in it,
    the bytes [main_loop] writes to the line are, put end to end, a
    prefix of the console input: nothing is dropped, added or
    reordered, however long the lines are.  When the loop ends with
    status 0 the whole input has been written. *)
Theorem unmapped_console_bytes_delivered cfg fd its : forall s,
  nlmap cfg ∉ [1; 2] -> NUL ∉ stdin s ->
  exists sent,
    written (calls (main_loop cfg fd its s)) = written (log s) ++ sent /\
    sent `prefix_of` stdin s /\
    (result (main_loop cfg fd its s) = Exited 0 -> sent = stdin s).
Proof.
  induction its as [|it its IH]; intros s Hmode Hnul.
  { exists []. simpl. rewrite app_nil_r.
    split; [done|]. split; [apply prefix_nil|discriminate]. }
  assert (forall s' text,
            exists sent,
              written (log (emit s' [Perror text])) = written (log s') ++ sent /\
              sent `prefix_of` stdin s /\
              (Exited (-1) = Exited 0 -> sent = stdin s)) as Hfatal.
  { intros s' text. exists []. simpl. rewrite written_app. simpl.
    split; [done|]. split; [apply prefix_nil|discriminate]. }
  simpl. unfold loop_body.
  destruct (_ <? 0); [apply Hfatal|].
  destruct (_ =? 0); [apply Hfatal|].
  destruct (console_part_unmapped cfg fd it s Hmode Hnul)
    as [Hc|[[Hempty Hc]|(line & rest & Hsplit & Hc)]]; rewrite Hc.
  - destruct (serial_part_adds cfg fd it s)
      as (es & (Hlog & _ & _) & Hw & Hin & Hctl).
    destruct (serial_part cfg fd it s) as [[| |r|f] s']; simpl in *.
    + destruct (IH s' Hmode) as (sent & Hsent & Hpre & Hall);
        [by rewrite Hin|].
      exists sent. rewrite Hsent, Hlog, written_app, Hw, app_nil_r.
      rewrite Hin in Hpre, Hall. done.
    + destruct Hctl.
    + exists []. rewrite Hlog, written_app, Hw, !app_nil_r.
      split; [done|]. split; [apply prefix_nil|]. subst r. discriminate.
    + exists []. rewrite Hlog, written_app, Hw, !app_nil_r.
      split; [done|]. split; [apply prefix_nil|discriminate].
  - exists []. simpl. rewrite app_nil_r.
    split; [done|]. split; [apply prefix_nil|]. by rewrite Hempty.
  - destruct (serial_part_adds cfg fd it
                (emit (set_stdin s rest) [SysWrite fd line]))
      as (es & (Hlog & _ & _) & Hw & Hin & Hctl).
    assert (NUL ∉ rest) as Hnul'
      by (rewrite Hsplit in Hnul; by apply not_elem_of_app in Hnul as [_ ?]).
    destruct (serial_part cfg fd it _) as [[| |r|f] s']; simpl in *.
    + destruct (IH s' Hmode) as (sent & Hsent & Hpre & Hall);
        [by rewrite Hin|].
      exists (line ++ sent).
      rewrite Hsent, Hlog, !written_app, Hw. simpl.
      rewrite !app_nil_r, Hsplit, <- app_assoc. rewrite Hin in Hpre, Hall.
      split; [done|]. split; [by apply prefix_app|].
      intros Hres. by rewrite (Hall Hres).
    + destruct Hctl.
    + exists line. rewrite Hlog, !written_app, Hw. simpl.
      rewrite !app_nil_r, Hsplit.
      split; [done|]. split; [by apply prefix_app_r|]. subst r. discriminate.
    + exists line. rewrite Hlog, !written_app, Hw. simpl.
      rewrite !app_nil_r, Hsplit.
      split; [done|]. split; [by apply prefix_app_r|discriminate].
Qed.

(** ** Time *)

(** X18.  For a clock reading that does not wrap the 64-bit product,
    [timestamp] is the number of whole milliseconds: 1000 for every
    second and one for every full million of nanoseconds.  Readings in
    order give time stamps in order. *)
Theorem timestamp_milliseconds (sec nsec sec' nsec' : Z) :
  0 <= sec -> 0 <= nsec < 1000000000 ->
  sec * 1000000000 + nsec <= sec' * 1000000000 + nsec' < 2 ^ 64 ->
  timestamp (sec, nsec) = 1000 * sec + nsec / 1000000 /\
  timestamp (sec, nsec) <= timestamp (sec', nsec').
Proof.
  intros Hsec Hnsec Hle. unfold timestamp. simpl.
  rewrite !Z.mod_small by lia. split.
  - replace (sec * 1000000000 + nsec)
      with ((1000 * sec) * 1000000 + nsec) by lia.
    by rewrite Z.div_add_l.
  - apply Z.div_le_mono; lia.
Qed.

Lemma last_default_irrelevant (l : list Z) (a d d' : Z) :
  List.last (a :: l) d = List.last (a :: l) d'.
Proof.
  revert a. induction l as [|b l IH]; intros a; [done|].
  change (List.last (b :: l) d = List.last (b :: l) d'). apply IH.
Qed.

Lemma last_cons_default (l : list Z) (a d : Z) :
  List.last (a :: l) d = List.last l a.
Proof.
  destruct l as [|b l]; [done|].
  change (List.last (b :: l) d = List.last (b :: l) a).
  apply last_default_irrelevant.
Qed.

Section TraceClock.
Variables (cfg : config) (fd : Z).
Hypothesis debug_off : debug cfg = 0.
Hypothesis trace_on : trace cfg <> 0.

Lemma read_replies_clock_from (its : list iteration) : forall s,
  0 < lastts s -> 0 <= total s <= lastts s ->
  Forall delivers its ->
  Sorted Z.le (lastts s :: map (fun it => timestamp (clock it)) its) ->
  lastts (read_replies cfg fd its s) = last_time its (lastts s) /\
  total (read_replies cfg fd its s) - lastts (read_replies cfg fd its s)
  = total s - lastts s.
Proof.
  induction its as [|it its IH]; intros s Hlast Htot Hall Hsorted; [done|].
  apply Forall_cons in Hall as [(chunk & Hread & Hlen) Hall].
  apply Sorted_inv in Hsorted as [Hsorted Hhd].
  apply HdRel_inv in Hhd. simpl in Hhd, Hsorted.
  change (read_replies cfg fd (it :: its) s)
    with (read_replies cfg fd its (read_reply cfg fd it s).2).
  rewrite (read_reply_trace_later cfg fd debug_off trace_on it s chunk)
    by (done || lia).
  destruct (IH (emit (set_clock s (timestamp (clock it))
                        (total s + (timestamp (clock it) - lastts s)))
                  [Stdout (trace_line
                             (total s + (timestamp (clock it) - lastts s))
                             (timestamp (clock it) - lastts s) chunk);
                   Fflush]))
    as [Hl Ht]; simpl; try done; try lia.
  simpl in Hl, Ht. split; [|lia].
  rewrite Hl. unfold last_time. simpl map. by rewrite last_cons_default.
Qed.

(** X19.  In trace mode, after any number of events with monotonic time
    stamps of which the first is not 0, [lastts] is the time of the last
    event and [total] is the time from the first event to the last. *)
Theorem trace_total_is_elapsed it its s :
  lastts s = 0 -> total s = 0 ->
  Forall delivers (it :: its) ->
  timestamp (clock it) <> 0 ->
  Sorted Z.le (map (fun it => timestamp (clock it)) (it :: its)) ->
  lastts (read_replies cfg fd (it :: its) s)
    = last_time its (timestamp (clock it)) /\
  total (read_replies cfg fd (it :: its) s)
    = last_time its (timestamp (clock it)) - timestamp (clock it).
Proof.
  intros Hlast Htot Hall Hfirst Hsorted.
  apply Forall_cons in Hall as [(chunk & Hread & Hlen) Hall].
  pose proof (timestamp_range (clock it)) as Hts.
  change (read_replies cfg fd (it :: its) s)
    with (read_replies cfg fd its (read_reply cfg fd it s).2).
  rewrite (read_reply_trace_first cfg fd debug_off trace_on it s chunk)
    by done.
  destruct (read_replies_clock_from its
              (emit (set_clock s (timestamp (clock it)) 0)
                 [Stdout (trace_line 0 0 chunk); Fflush]))
    as [Hl Ht]; simpl; try done; try lia.
  simpl in Hl, Ht. rewrite <- Hl. split; [done|lia].
Qed.

End TraceClock.

(** ** The program name *)

Lemma after_last_slash_none (s : string) :
  after_last_slash s = None -> "/"%char ∉ list_ascii_of_string s.
Proof.
  induction s as [|c s IH]; simpl; intros Hnone; [apply not_elem_of_nil|].
  destruct (after_last_slash s) as [t|]; [discriminate|].
  destruct (decide (c = "/"%char)); [discriminate|].
  apply not_elem_of_cons. split; [congruence|by apply IH].
Qed.

Lemma after_last_slash_some (s : string) : forall t,
  after_last_slash s = Some t ->
  ("/"%char ∉ list_ascii_of_string t) /\ exists dir, s = dir +:+ "/" +:+ t.
Proof.
  induction s as [|c s IH]; simpl; intros t Hsome; [discriminate|].
  destruct (after_last_slash s) as [t'|] eqn:Hrec.
  - injection Hsome as <-. destruct (IH t' eq_refl) as [Hno [dir ->]].
    split; [done|]. by exists (String c dir).
  - destruct (decide (c = "/"%char)) as [->|]; [|discriminate].
    injection Hsome as <-. split; [by apply after_last_slash_none|].
    by exists "".
Qed.

(** X20.  The program name shown in the usage text is [argv[0]] without
    its directories: it holds no slash, and [argv[0]] is either that
    name or some directory part, a slash, and that name. *)
Theorem progname_of_basename (argv0 : string) :
  ("/"%char ∉ list_ascii_of_string (progname_of argv0)) /\
  (argv0 = progname_of argv0 \/
   exists dir, argv0 = dir +:+ "/" +:+ progname_of argv0).
Proof.
  unfold progname_of.
  destruct (after_last_slash argv0) as [t|] eqn:Hlast; simpl.
  - destruct (after_last_slash_some _ _ Hlast) as [Hno Hdir].
    split; [done|by right].
  - split; [by apply after_last_slash_none|by left].
Qed.

(** ** How a turn ends the run *)

(** X21.  An error or hang-up condition on the serial descriptor ends
    the run with -1 once the console part of the turn is done: POLLERR
    is reported in preference to POLLHUP, nothing is read from the line
    in that turn even if data is waiting, and the turns that would
    follow never happen. *)
Theorem serial_fault_ends_run cfg fd it its s s1 :
  0 < poll_ret it -> console_part cfg fd it s = (Next, s1) ->
  Z.land (revents1 it) POLLERR <> 0 \/ Z.land (revents1 it) POLLHUP <> 0 ->
  main_loop cfg fd (it :: its) s
  = {| result := Exited (-1);
       calls := log s1 ++
                [Stderr ((if decide (Z.land (revents1 it) POLLERR = 0)
                          then "POLLHUP" else "POLLERR") +:+ nl)] |}.
Proof.
  intros Hpoll Hconsole Hfault. simpl. unfold loop_body.
  destruct (poll_ret it <? 0) eqn:Hneg; [lia|].
  destruct (poll_ret it =? 0) eqn:Hz; [lia|].
  rewrite Hconsole. unfold serial_part.
  destruct (decide (Z.land (revents1 it) POLLERR = 0)) as [Herr|Herr].
  - rewrite Herr. simpl.
    destruct (Z.land (revents1 it) POLLHUP =? 0) eqn:Hhup;
      [destruct Hfault; lia|done].
  - destruct (Z.land (revents1 it) POLLERR =? 0) eqn:Hz'; [lia|done].
Qed.

(** X22.  End of file on the console ends the run with 0 and nothing
    more is done in that turn: the serial conditions of the turn are
    not looked at, so an error or hang-up reported together with the
    end of the console input goes unreported. *)
Theorem console_eof_ends_run cfg fd it its s :
  0 < poll_ret it -> console_ready it -> stdin s = [] ->
  main_loop cfg fd (it :: its) s = {| result := Exited 0; calls := log s |}.
Proof.
  intros Hpoll Hready Hempty. simpl. unfold loop_body, console_part.
  destruct (poll_ret it <? 0) eqn:Hneg; [lia|].
  destruct (poll_ret it =? 0) eqn:Hz; [lia|].
  destruct (Z.land (revents0 it) (Z.lor POLLIN POLLPRI) =? 0) eqn:Hr;
    [unfold console_ready in Hready; lia|].
  rewrite Hempty. reflexivity.
Qed.

End MoreProperties.
(** * The properties on Linux, at concrete inputs *)

#[local] Existing Instance linux.

Lemma console_turn_ready : console_ready console_turn.
Proof. unfold console_ready. vm_compute. discriminate. Defined.

Lemma serial_turn_ready r ts : serial_ready (serial_turn r ts).
Proof. unfold serial_ready. repeat split. vm_compute. discriminate. Defined.

Lemma letters_no_NL (n : nat) : NL ∉ replicate n "a"%char.
Proof. intros Hin. apply elem_of_replicate_inv in Hin. discriminate. Defined.

Lemma letters_no_NUL (n : nat) : NUL ∉ replicate n "a"%char.
Proof. intros Hin. apply elem_of_replicate_inv in Hin. discriminate. Defined.

(** ** C1 *)

(** A read of no bytes from the ready serial descriptor does not end
    the process: the loop goes on, and here it ends later, at the end of
    the console input, with exit status 0. *)
Lemma zero_byte_read_not_fatal :
  serial_ready (serial_turn (Some []) (0, 0)) /\
  main "slush" [("p"%char, DEVICE)] empty_read_world
  = {| result := Exited 0;
       calls := [SysOpen DEVICE 258; SysTcflush 3 0;
                 SysTcsetattr 3 0 (nterm plain_config 4098 0 0);
                 Stdout ""; Fflush] |} /\
  exit_status 0 = 0.
Proof. split; [apply serial_turn_ready|]. split; vm_compute; reflexivity. Qed.

(** The same world with a [read] that fails: the -1 of [read_reply] is
    dropped by [main], which goes on and ends with status 0. *)
Example failed_read_ignored :
  main "slush" [("p"%char, DEVICE)] failed_read_world
  = {| result := Exited 0;
       calls := [SysOpen DEVICE 258; SysTcflush 3 0;
                 SysTcsetattr 3 0 (nterm plain_config 4098 0 0);
                 Perror "read"] |}.
Proof. vm_compute. reflexivity. Qed.

Lemma serial_read_zero_bytes_continues_witness :
  0 < poll_ret (serial_turn (Some []) (0, 0)) /\
  console_part plain_config 3 (serial_turn (Some []) (0, 0)) (state0 [])
    = (Next, state0 []) /\
  serial_ready (serial_turn (Some []) (0, 0)) /\
  main_loop plain_config 3 [serial_turn (Some []) (0, 0); console_turn] (state0 [])
  = main_loop plain_config 3 [console_turn]
      (read_reply plain_config 3 (serial_turn (Some []) (0, 0)) (state0 [])).2 /\
  read_reply plain_config 3 (serial_turn (Some []) (0, 0)) (state0 [])
  = (Ok 0, emit (state0 []) [Stdout ""; Fflush]).
Proof.
  assert (0 < poll_ret (serial_turn (Some []) (0, 0))) as Hpoll by (simpl; lia).
  assert (console_part plain_config 3 (serial_turn (Some []) (0, 0)) (state0 [])
          = (Next, state0 [])) as Hconsole by reflexivity.
  split; [exact Hpoll|]. split; [exact Hconsole|].
  split; [apply serial_turn_ready|].
  destruct (serial_read_zero_bytes_continues plain_config 3
              (serial_turn (Some []) (0, 0)) [console_turn] (state0 [])
              (state0 []) Hpoll Hconsole (serial_turn_ready _ _))
    as [Hzero _].
  destruct (Hzero eq_refl) as (_ & _ & Hloop & _ & _ & _ & Hplain).
  split; [exact Hloop|]. exact (Hplain eq_refl eq_refl eq_refl).
Defined.

(** ** C2 *)

Lemma main_without_p_device_indeterminate_witness :
  Forall (fun o : ascii * string => o.1 <> "p"%char) [("a"%char, "")] /\
  getopt_loop [("a"%char, "")] init_config = Parsed (set_annotate init_config 1) /\
  main "slush" [("a"%char, "")] no_turns
  = {| result := Undefined IndeterminatePointer; calls := [] |}.
Proof.
  assert (Forall (fun o : ascii * string => o.1 <> "p"%char) [("a"%char, "")])
    as Hnop by (repeat constructor; discriminate).
  split; [exact Hnop|]. split; [reflexivity|].
  apply (main_without_p_device_indeterminate "slush" [("a"%char, "")]
           (set_annotate init_config 1) no_turns Hnop eq_refl).
  by eexists.
Defined.

(** ** C3 *)

(** With a line that fills the buffer, both stores of mode 2 are inside
    the array: the remapping succeeds, and there is no store at index
    [BUFLEN]. *)
Lemma full_line_mode2_stores_in_bounds :
  length full_line = (BUFLEN - 1)%nat /\ (NL ∉ full_line) /\
  fgets (zeroed BUFLEN) BUFLEN full_line = Some (full_line ++ [NUL], []) /\
  nl_remap 2 (full_line ++ [NUL])
  = Ok (replicate (BUFLEN - 2) "a"%char ++ [CR; NL]) /\
  length (replicate (BUFLEN - 2) "a"%char ++ [CR; NL]) = BUFLEN /\
  nl_remap 2 (full_line ++ [NUL]) <> Undef (OobWrite (Z.of_nat BUFLEN)).
Proof.
  assert (nl_remap 2 (full_line ++ [NUL])
          = Ok (replicate (BUFLEN - 2) "a"%char ++ [CR; NL])) as Hremap
    by (vm_compute; reflexivity).
  split; [reflexivity|]. split; [apply letters_no_NL|].
  split; [vm_compute; reflexivity|]. split; [exact Hremap|].
  split; [vm_compute; reflexivity|]. rewrite Hremap. discriminate.
Qed.

Lemma full_line_mode2_overwrites_terminator_witness :
  console_ready console_turn /\ nlmap (nlmap_config 2) = 2 /\
  (BUFLEN - 1 <= length (stdin (state0 full_line)))%nat /\
  (NL ∉ take (BUFLEN - 1) (stdin (state0 full_line))) /\
  (NUL ∉ take (BUFLEN - 1) (stdin (state0 full_line))) /\
  console_part (nlmap_config 2) 3 console_turn (state0 full_line)
  = (UB OobRead, state0 []).
Proof.
  assert (BUFLEN - 1 <= length (stdin (state0 full_line)))%nat as Hlen
    by (vm_compute; reflexivity).
  assert (NL ∉ take (BUFLEN - 1) (stdin (state0 full_line))) as Hnl
    by (change (NL ∉ take (BUFLEN - 1) (replicate (BUFLEN - 1) "a"%char));
        rewrite take_replicate; apply letters_no_NL).
  assert (NUL ∉ take (BUFLEN - 1) (stdin (state0 full_line))) as Hnul
    by (change (NUL ∉ take (BUFLEN - 1) (replicate (BUFLEN - 1) "a"%char));
        rewrite take_replicate; apply letters_no_NUL).
  split; [apply console_turn_ready|]. split; [reflexivity|].
  split; [exact Hlen|]. split; [exact Hnl|]. split; [exact Hnul|].
  apply (full_line_mode2_overwrites_terminator (nlmap_config 2) 3 console_turn
           (state0 full_line) console_turn_ready eq_refl Hlen Hnl Hnul).
Defined.

(** ** C4 *)

Lemma crnl_line_without_room_witness :
  console_ready console_turn /\ nlmap (nlmap_config 2) = 2 /\
  stdin (state0 (long_body ++ [NL])) = long_body ++ NL :: [] /\
  (NL ∉ long_body) /\ (NUL ∉ long_body) /\ length long_body = (BUFLEN - 2)%nat /\
  console_part (nlmap_config 2) 3 console_turn (state0 (long_body ++ [NL]))
  = (UB OobRead, state0 []).
Proof.
  split; [apply console_turn_ready|]. split; [reflexivity|].
  split; [reflexivity|]. split; [apply letters_no_NL|].
  split; [apply letters_no_NUL|]. split; [reflexivity|].
  apply (crnl_line_without_room (nlmap_config 2) 3 console_turn
           (state0 (long_body ++ [NL])) long_body []
           console_turn_ready eq_refl eq_refl
           (letters_no_NL _) (letters_no_NUL _) eq_refl).
Defined.

(** With room for the appended byte the three modes do what C4 says. *)
Example hello_remapped :
  console_part (nlmap_config 0) 3 console_turn (state0 hello)
    = (Next, emit (state0 []) [SysWrite 3 (list_ascii_of_string "hello" ++ [NL])]) /\
  console_part (nlmap_config 1) 3 console_turn (state0 hello)
    = (Next, emit (state0 []) [SysWrite 3 (list_ascii_of_string "hello" ++ [CR])]) /\
  console_part (nlmap_config 2) 3 console_turn (state0 hello)
    = (Next, emit (state0 []) [SysWrite 3 (list_ascii_of_string "hello" ++ [CR; NL])]).
Proof. repeat split; vm_compute; reflexivity. Qed.

(** ** C5 *)

(** When the first event comes while the clock reads 0, the second one
    is taken for a first one again: it shows 0 and 0, not the 150 ms
    that passed. *)
Lemma trace_first_event_at_zero :
  Sorted Z.le (map (fun it => timestamp (clock it)) events_from_zero) /\
  log (read_replies trace_config 3 events_from_zero (state0 []))
    = printed ["0 0 A" +:+ nl; "0 0 B" +:+ nl] /\
  trace_rendering (map trace_event events_from_zero)
    = ["0 0 A" +:+ nl; "150 150 B" +:+ nl] /\
  log (read_replies trace_config 3 events_from_zero (state0 []))
    <> log (state0 [])
       ++ printed (trace_rendering (map trace_event events_from_zero)).
Proof.
  split; [repeat constructor; by vm_compute|].
  split; [vm_compute; reflexivity|]. split; [vm_compute; reflexivity|].
  vm_compute. discriminate.
Qed.

Lemma trace_mode_rendering_witness :
  debug trace_config = 0 /\ trace trace_config <> 0 /\
  Forall delivers three_events /\
  timestamp (5, 0) <> 0 /\
  Sorted Z.le (map (fun it => timestamp (clock it)) three_events) /\
  log (read_replies trace_config 3 three_events (state0 []))
  = printed ["0 0 A" +:+ nl; "150 150 B" +:+ nl; "200 50 C" +:+ nl].
Proof.
  assert (trace trace_config <> 0) as Htrace by discriminate.
  assert (Forall delivers three_events) as Hall.
  { repeat constructor; eexists; (split; [reflexivity|]);
      unfold BUFLEN; simpl; lia. }
  assert (timestamp (5, 0) <> 0) as Hfirst by (vm_compute; discriminate).
  assert (Sorted Z.le (map (fun it => timestamp (clock it)) three_events))
    as Hsorted by (repeat constructor; vm_compute; discriminate).
  split; [reflexivity|]. split; [exact Htrace|]. split; [exact Hall|].
  split; [exact Hfirst|]. split; [exact Hsorted|].
  exact (trace_mode_rendering trace_config 3 eq_refl Htrace
           (serial_turn (Some ["A"%char]) (5, 0))
           [serial_turn (Some ["B"%char]) (5, 150000000);
            serial_turn (Some ["C"%char]) (5, 200000000)]
           (state0 []) eq_refl eq_refl Hall Hfirst Hsorted).
Defined.

(** ** C6 *)

Lemma open_serial_canonical_iff_witness :
  ICANON <> 0 /\ 0 <= open_ret no_turns /\
  last (open_serial plain_config DEVICE B115200 0 0 no_turns).2
    = Some (SysTcsetattr 3 TCSANOW (nterm plain_config B115200 0 0)) /\
  canonical (nterm plain_config B115200 0 0) = true /\
  canonical (nterm (set_debug plain_config 1) B115200 0 0) = false /\
  canonical (nterm (set_trace plain_config 1) B115200 0 0) = false.
Proof.
  assert (ICANON <> 0) as Hcanon by discriminate.
  assert (0 <= open_ret no_turns) as Hfd by (simpl; lia).
  split; [exact Hcanon|]. split; [exact Hfd|].
  destruct (open_serial_canonical_iff plain_config DEVICE B115200 0 0 no_turns
              Hcanon Hfd) as (Hlast & Hiff & _).
  split; [exact Hlast|]. split; [apply Hiff; by split|].
  split; reflexivity.
Defined.

(** ** C7 *)

Lemma main_baud_check_witness :
  getopt_loop [("p"%char, DEVICE); ("b"%char, "300")] init_config
    = Parsed (set_bps plain_config 300) /\
  main "/usr/bin/slush" [("p"%char, DEVICE); ("b"%char, "300")] no_turns
    = {| result := Exited (-1); calls := [usage "slush"] |} /\
  exit_status (-1) = 255.
Proof.
  assert (getopt_loop [("p"%char, DEVICE); ("b"%char, "300")] init_config
          = Parsed (set_bps plain_config 300)) as Hparse by reflexivity.
  split; [exact Hparse|]. split; [|reflexivity].
  destruct (main_baud_check "/usr/bin/slush"
              [("p"%char, DEVICE); ("b"%char, "300")]
              (set_bps plain_config 300) no_turns Hparse) as [_ Hreject].
  apply Hreject. apply (bool_decide_unpack _). vm_compute. exact I.
Defined.

(** Every supported rate reaches [open_serial] with its constant in the
    control modes. *)
Example supported_baud_9600 :
  main "slush" [("p"%char, DEVICE); ("b"%char, "9600")] no_turns
  = {| result := Waiting;
       calls := [SysOpen DEVICE 258; SysTcflush 3 0;
                 SysTcsetattr 3 0
                   {| c_iflag := IGNPAR; c_oflag := 0;
                      c_cflag := Z.lor (Z.lor (Z.lor B9600 CS8) CLOCAL) CREAD;
                      c_lflag := ICANON; c_cc_VTIME := 10; c_cc_VMIN := 1 |}] |}.
Proof. vm_compute. reflexivity. Qed.

(** ** C8 *)

Lemma debug_show_reply_rendering_witness :
  0 <= 2 <= Z.of_nat (length ["A"%char; NL]) /\
  debug_show_reply ["A"%char; NL] 2 = Ok ("410a" +:+ "  " +:+ "A." +:+ nl).
Proof.
  assert (0 <= 2 <= Z.of_nat (length ["A"%char; NL])) as Hlen by (simpl; lia).
  split; [exact Hlen|].
  exact (debug_show_reply_rendering ["A"%char; NL] 2 Hlen).
Defined.

(** ** C9 *)

Lemma read_reply_embedded_nul_witness :
  (length chunk_with_nul <= BUFLEN)%nat /\ (NUL ∈ chunk_with_nul) /\
  read_reply plain_config 3 (serial_turn (Some chunk_with_nul) (0, 0)) (state0 [])
    = (Ok 0, emit (state0 []) [Stdout "ab"; Fflush]) /\
  read_reply annotate_config 3 (serial_turn (Some chunk_with_nul) (0, 0)) (state0 [])
    = (Ok 0, emit (state0 []) [Stdout ("read  5 bytes {ab}" +:+ nl); Fflush]).
Proof.
  assert (length chunk_with_nul <= BUFLEN)%nat as Hlen
    by (unfold BUFLEN; simpl; lia).
  assert (NUL ∈ chunk_with_nul) as Hnul by (do 2 right; left).
  split; [exact Hlen|]. split; [exact Hnul|]. split.
  - apply (read_reply_embedded_nul plain_config 3
             (serial_turn (Some chunk_with_nul) (0, 0)) (state0 []) chunk_with_nul
             eq_refl Hlen Hnul eq_refl eq_refl).
    reflexivity.
  - apply (read_reply_embedded_nul annotate_config 3
             (serial_turn (Some chunk_with_nul) (0, 0)) (state0 []) chunk_with_nul
             eq_refl Hlen Hnul eq_refl eq_refl).
    discriminate.
Defined.

(** ** C10 *)

Lemma nlmap_other_values_as_mode_0_witness :
  (7 ∉ [0; 1; 2]) /\
  getopt_loop [("p"%char, DEVICE); ("o"%char, "7")] init_config
    = Parsed (nlmap_config 7) /\
  console_part (nlmap_config 7) 3 console_turn (state0 hello)
    = (Next, emit (state0 []) [SysWrite 3 hello]) /\
  run "slush" (nlmap_config 7) no_turns
    = run "slush" (set_nlmap (nlmap_config 7) 0) no_turns.
Proof.
  assert (7 ∉ [0; 1; 2]) as Hn
    by (apply (bool_decide_unpack _); vm_compute; exact I).
  destruct (nlmap_other_values_as_mode_0 7 Hn) as (Hopt & _ & Hline & Hrun).
  split; [exact Hn|]. split; [|split].
  - exact (Hopt "7" [] (set_device init_config (Ptr DEVICE)) eq_refl).
  - apply (Hline (nlmap_config 7) 3 console_turn (state0 hello) hello []
             eq_refl console_turn_ready).
    + discriminate.
    + reflexivity.
    + apply (bool_decide_unpack _). vm_compute. exact I.
  - exact (Hrun "slush" (nlmap_config 7) no_turns eq_refl).
Defined.

(** * The further properties on Linux, at concrete inputs *)

Lemma main_stops_at_first_other_option_witness :
  Forall (fun o : ascii * string => o.1 ∈ setting_options) [("b"%char, "300")] /\
  ("h"%char ∉ setting_options) /\
  main "slush" [("b"%char, "300"); ("h"%char, ""); ("p"%char, DEVICE)] no_turns
  = {| result := Exited 0; calls := [usage "slush"] |}.
Proof.
  assert (Forall (fun o : ascii * string => o.1 ∈ setting_options)
            [("b"%char, "300")]) as Hpre
    by (repeat constructor; apply (bool_decide_unpack _); vm_compute; exact I).
  assert ("h"%char ∉ setting_options) as Hh
    by (apply (bool_decide_unpack _); vm_compute; exact I).
  split; [exact Hpre|]. split; [exact Hh|].
  exact (main_stops_at_first_other_option "slush" [("b"%char, "300")]
           "h"%char "" [("p"%char, DEVICE)] no_turns Hpre Hh).
Defined.

Lemma getopt_loop_flags_witness :
  getopt_loop [("d"%char, ""); ("p"%char, DEVICE); ("f"%char, ""); ("d"%char, "")]
    init_config
  = Parsed (set_hwfc (set_debug plain_config 1) 1) /\
  debug (set_hwfc (set_debug plain_config 1) 1) = 1 /\
  trace (set_hwfc (set_debug plain_config 1) 1) = 0.
Proof.
  split; [reflexivity|].
  destruct (getopt_loop_flags
              [("d"%char, ""); ("p"%char, DEVICE); ("f"%char, ""); ("d"%char, "")]
              (set_hwfc (set_debug plain_config 1) 1) eq_refl)
    as (_ & Hd & Ht & _).
  split; [exact Hd|exact Ht].
Defined.

Lemma getopt_loop_last_argument_wins_witness :
  getopt_loop [("b"%char, "9600"); ("p"%char, DEVICE); ("b"%char, "1200")]
    init_config
  = Parsed (set_bps plain_config 1200) /\
  bps (set_bps plain_config 1200) = 1200 /\
  nlmap (set_bps plain_config 1200) = 0.
Proof.
  assert (getopt_loop
            [("b"%char, "9600"); ("p"%char, DEVICE); ("b"%char, "1200")]
            init_config
          = Parsed (set_bps plain_config 1200)) as Hparse by reflexivity.
  split; [exact Hparse|].
  destruct (getopt_loop_last_argument_wins
              [("b"%char, "9600"); ("p"%char, DEVICE); ("b"%char, "1200")]
              (set_bps plain_config 1200) Hparse) as (Hb & Ho & _).
  split; [exact Hb|exact Ho].
Defined.

Lemma main_open_failure_witness :
  getopt_loop [("p"%char, DEVICE)] init_config = Parsed plain_config /\
  ((bps plain_config, B115200) ∈ baud_table) /\
  open_ret failing_open < 0 /\
  main "slush" [("p"%char, DEVICE)] failing_open
  = {| result := Exited (-1);
       calls := [SysOpen DEVICE 258;
                 StderrErrno ("Cannot open " +:+ DEVICE +:+ " : ")] |}.
Proof.
  assert ((bps plain_config, B115200) ∈ baud_table) as Hk
    by (apply (bool_decide_unpack _); vm_compute; exact I).
  assert (open_ret failing_open < 0) as Hneg by (simpl; lia).
  split; [reflexivity|]. split; [exact Hk|]. split; [exact Hneg|].
  exact (main_open_failure "slush" [("p"%char, DEVICE)] plain_config B115200
           DEVICE failing_open eq_refl Hk eq_refl Hneg).
Defined.

Lemma nterm_optional_bits_witness :
  ICRNL <> 0 /\ Z.land IGNPAR ICRNL = 0 /\ CRTSCTS <> 0 /\
  Z.land (Z.lor (Z.lor (Z.lor B115200 CS8) CLOCAL) CREAD) CRTSCTS = 0 /\
  Z.land (c_cflag (nterm plain_config B115200 0 1)) CRTSCTS <> 0 /\
  Z.land (c_iflag (nterm plain_config B115200 0 1)) ICRNL = 0.
Proof.
  assert (ICRNL <> 0) as H1 by discriminate.
  assert (Z.land IGNPAR ICRNL = 0) as H2 by reflexivity.
  assert (CRTSCTS <> 0) as H3 by discriminate.
  assert (Z.land (Z.lor (Z.lor (Z.lor B115200 CS8) CLOCAL) CREAD) CRTSCTS = 0)
    as H4 by reflexivity.
  split; [exact H1|]. split; [exact H2|]. split; [exact H3|].
  split; [exact H4|].
  destruct (nterm_optional_bits plain_config B115200 0 1 H1 H2 H3 H4)
    as (_ & Hflow & _).
  split; [apply Hflow; discriminate|reflexivity].
Defined.

Lemma read_reply_mode_precedence_witness :
  debug all_display_config <> 0 /\
  read_reply all_display_config 3 (serial_turn (Some ["A"%char; NL]) (5, 0))
    (state0 [])
  = read_reply (with_display all_display_config 0 1 0) 3
      (serial_turn (Some ["A"%char; NL]) (5, 0)) (state0 []).
Proof.
  assert (debug all_display_config <> 0) as Hd by discriminate.
  split; [exact Hd|].
  destruct (read_reply_mode_precedence all_display_config 3
              (serial_turn (Some ["A"%char; NL]) (5, 0)) (state0 []))
    as [Hdebug _].
  destruct (Hdebug Hd) as [Heq _]. exact Heq.
Defined.

Lemma read_reply_debug_trace_defined_witness :
  serial_read (serial_turn (Some full_chunk) (5, 0)) = Some full_chunk /\
  trace trace_config <> 0 /\
  (read_reply trace_config 3 (serial_turn (Some full_chunk) (5, 0)) (state0 [])).1
  = Ok 0.
Proof.
  assert (trace trace_config <> 0) as Ht by discriminate.
  split; [reflexivity|]. split; [exact Ht|].
  destruct (read_reply_debug_trace_defined trace_config 3
              (serial_turn (Some full_chunk) (5, 0)) (state0 []) full_chunk
              eq_refl) as [_ Htrace].
  exact (Htrace eq_refl Ht).
Defined.

Lemma read_reply_full_chunk_unterminated_witness :
  (BUFLEN <= length full_chunk)%nat /\ (NUL ∉ take BUFLEN full_chunk) /\
  read_reply plain_config 3 (serial_turn (Some full_chunk) (0, 0)) (state0 [])
  = (Undef OobRead, state0 []).
Proof.
  assert (BUFLEN <= length full_chunk)%nat as Hlen
    by (unfold full_chunk; rewrite length_replicate; lia).
  assert (NUL ∉ take BUFLEN full_chunk) as Hnul
    by (unfold full_chunk; rewrite take_replicate; apply letters_no_NUL).
  split; [exact Hlen|]. split; [exact Hnul|].
  exact (read_reply_full_chunk_unterminated plain_config 3
           (serial_turn (Some full_chunk) (0, 0)) (state0 []) full_chunk
           eq_refl Hlen Hnul eq_refl eq_refl).
Defined.

Lemma read_reply_short_chunk_exact_witness :
  (length (list_ascii_of_string "ok") < BUFLEN)%nat /\
  (NUL ∉ list_ascii_of_string "ok") /\
  read_reply plain_config 3
    (serial_turn (Some (list_ascii_of_string "ok")) (0, 0)) (state0 [])
  = (Ok 0, emit (state0 []) [Stdout "ok"; Fflush]).
Proof.
  assert (length (list_ascii_of_string "ok") < BUFLEN)%nat as Hlen
    by (unfold BUFLEN; simpl; lia).
  assert (NUL ∉ list_ascii_of_string "ok") as Hnul
    by (apply (bool_decide_unpack _); vm_compute; exact I).
  split; [exact Hlen|]. split; [exact Hnul|].
  destruct (read_reply_short_chunk_exact plain_config 3
              (serial_turn (Some (list_ascii_of_string "ok")) (0, 0))
              (state0 []) (list_ascii_of_string "ok")
              eq_refl Hlen Hnul eq_refl eq_refl) as [Hplain _].
  exact (Hplain eq_refl).
Defined.

Lemma main_after_configuration_witness :
  0 <= open_ret hello_world /\
  result (main "slush" [("p"%char, DEVICE)] hello_world) = Exited 0 /\
  exists es,
    calls (main "slush" [("p"%char, DEVICE)] hello_world)
    = [SysOpen DEVICE (Z.lor O_RDWR O_NOCTTY);
       SysTcflush (open_ret hello_world) TCIFLUSH;
       SysTcsetattr (open_ret hello_world) TCSANOW
         (nterm plain_config B115200 (icrnl plain_config) (hwfc plain_config))]
      ++ es /\
    Forall (loop_effect (open_ret hello_world)) es.
Proof.
  assert (0 <= open_ret hello_world) as Hfd by (simpl; lia).
  assert ((bps plain_config, B115200) ∈ baud_table) as Hk
    by (apply (bool_decide_unpack _); vm_compute; exact I).
  assert (result (main "slush" [("p"%char, DEVICE)] hello_world) = Exited 0)
    as Hres by (vm_compute; reflexivity).
  assert (forall f, result (main "slush" [("p"%char, DEVICE)] hello_world)
                    <> Undefined f) as Hdefined
    by (intros f; rewrite Hres; discriminate).
  split; [exact Hfd|]. split; [exact Hres|].
  destruct (main_after_configuration "slush" [("p"%char, DEVICE)] plain_config
              B115200 DEVICE hello_world eq_refl Hk eq_refl Hfd Hdefined)
    as [_ Hcalls].
  exact Hcalls.
Defined.

Lemma main_returns_0_or_minus_1_witness :
  result (main "slush" [("p"%char, DEVICE)] hello_world) = Exited 0 /\
  (exit_status 0 = 0 \/ exit_status 0 = 255).
Proof.
  assert (result (main "slush" [("p"%char, DEVICE)] hello_world) = Exited 0)
    as Hres by (vm_compute; reflexivity).
  split; [exact Hres|].
  destruct (main_returns_0_or_minus_1 "slush" [("p"%char, DEVICE)] hello_world
              0 Hres) as [_ Hstatus].
  exact Hstatus.
Defined.

Lemma console_line_truncated_at_nul_witness :
  console_ready console_turn /\ stdin (state0 nul_line) <> [] /\
  fgets_line (BUFLEN - 1) (stdin (state0 nul_line)) = (nul_line, []) /\
  (nlmap plain_config ∉ [1; 2]) /\
  console_part plain_config 3 console_turn (state0 nul_line)
  = (Next, emit (state0 []) [SysWrite 3 ["a"%char]]).
Proof.
  assert (stdin (state0 nul_line) <> []) as Hne by discriminate.
  assert (fgets_line (BUFLEN - 1) (stdin (state0 nul_line)) = (nul_line, []))
    as Hline by reflexivity.
  assert (nlmap plain_config ∉ [1; 2]) as Hmode
    by (apply (bool_decide_unpack _); vm_compute; exact I).
  split; [apply console_turn_ready|]. split; [exact Hne|].
  split; [exact Hline|]. split; [exact Hmode|].
  exact (console_line_truncated_at_nul plain_config 3 console_turn
           (state0 nul_line) nul_line [] console_turn_ready Hne Hline Hmode).
Defined.

Lemma remap_replaces_last_byte_witness :
  console_ready console_turn /\ stdin (state0 unfinished_line) <> [] /\
  fgets_line (BUFLEN - 1) (stdin (state0 unfinished_line))
    = (unfinished_line, []) /\
  (NUL ∉ unfinished_line) /\
  console_part (nlmap_config 1) 3 console_turn (state0 unfinished_line)
  = (Next, emit (state0 []) [SysWrite 3 ["h"%char; CR]]).
Proof.
  assert (stdin (state0 unfinished_line) <> []) as Hne by discriminate.
  assert (fgets_line (BUFLEN - 1) (stdin (state0 unfinished_line))
          = (unfinished_line, [])) as Hline by reflexivity.
  assert (NUL ∉ unfinished_line) as Hnul
    by (apply (bool_decide_unpack _); vm_compute; exact I).
  split; [apply console_turn_ready|]. split; [exact Hne|].
  split; [exact Hline|]. split; [exact Hnul|].
  destruct (remap_replaces_last_byte (nlmap_config 1) 3 console_turn
              (state0 unfinished_line) unfinished_line []
              console_turn_ready Hne Hline Hnul) as [Hcr _].
  exact (Hcr eq_refl).
Defined.

Lemma leading_nul_store_out_of_bounds_witness :
  console_ready console_turn /\
  stdin (state0 (NUL :: hello)) = NUL :: hello /\
  (nlmap (nlmap_config 1) = 1 \/ nlmap (nlmap_config 1) = 2) /\
  (console_part (nlmap_config 1) 3 console_turn (state0 (NUL :: hello))).1
  = UB (OobWrite 18446744073709551615).
Proof.
  split; [apply console_turn_ready|]. split; [reflexivity|].
  split; [by left|].
  exact (leading_nul_store_out_of_bounds (nlmap_config 1) 3 console_turn
           (state0 (NUL :: hello)) hello console_turn_ready eq_refl
           (or_introl eq_refl)).
Defined.

Lemma unmapped_console_bytes_delivered_witness :
  (nlmap plain_config ∉ [1; 2]) /\ (NUL ∉ stdin (state0 hello)) /\
  result (main_loop plain_config 3 [console_turn; console_turn] (state0 hello))
    = Exited 0 /\
  exists sent,
    written (calls (main_loop plain_config 3 [console_turn; console_turn]
                      (state0 hello)))
    = written (log (state0 hello)) ++ sent /\
    sent `prefix_of` stdin (state0 hello) /\
    (result (main_loop plain_config 3 [console_turn; console_turn]
               (state0 hello)) = Exited 0 ->
     sent = stdin (state0 hello)).
Proof.
  assert (nlmap plain_config ∉ [1; 2]) as Hmode
    by (apply (bool_decide_unpack _); vm_compute; exact I).
  assert (NUL ∉ stdin (state0 hello)) as Hnul
    by (apply (bool_decide_unpack _); vm_compute; exact I).
  split; [exact Hmode|]. split; [exact Hnul|]. split; [reflexivity|].
  exact (unmapped_console_bytes_delivered plain_config 3
           [console_turn; console_turn] (state0 hello) Hmode Hnul).
Defined.

Lemma timestamp_milliseconds_witness :
  0 <= 5 /\ 0 <= 150999999 < 1000000000 /\
  5 * 1000000000 + 150999999 <= 5 * 1000000000 + 200000000 < 2 ^ 64 /\
  timestamp (5, 150999999) = 5150 /\
  timestamp (5, 150999999) <= timestamp (5, 200000000).
Proof.
  assert (0 <= 5) as H1 by lia.
  assert (0 <= 150999999 < 1000000000) as H2 by lia.
  assert (5 * 1000000000 + 150999999 <= 5 * 1000000000 + 200000000 < 2 ^ 64)
    as H3 by lia.
  split; [exact H1|]. split; [exact H2|]. split; [exact H3|].
  exact (timestamp_milliseconds 5 150999999 5 200000000 H1 H2 H3).
Defined.

Lemma trace_total_is_elapsed_witness :
  debug trace_config = 0 /\ trace trace_config <> 0 /\
  Forall delivers three_events /\
  timestamp (5, 0) <> 0 /\
  Sorted Z.le (map (fun it => timestamp (clock it)) three_events) /\
  lastts (read_replies trace_config 3 three_events (state0 [])) = 5200 /\
  total (read_replies trace_config 3 three_events (state0 [])) = 200.
Proof.
  assert (trace trace_config <> 0) as Htrace by discriminate.
  assert (Forall delivers three_events) as Hall.
  { repeat constructor; eexists; (split; [reflexivity|]);
      unfold BUFLEN; simpl; lia. }
  assert (timestamp (5, 0) <> 0) as Hfirst by (vm_compute; discriminate).
  assert (Sorted Z.le (map (fun it => timestamp (clock it)) three_events))
    as Hsorted by (repeat constructor; vm_compute; discriminate).
  split; [reflexivity|]. split; [exact Htrace|]. split; [exact Hall|].
  split; [exact Hfirst|]. split; [exact Hsorted|].
  exact (trace_total_is_elapsed trace_config 3 eq_refl Htrace
           (serial_turn (Some ["A"%char]) (5, 0))
           [serial_turn (Some ["B"%char]) (5, 150000000);
            serial_turn (Some ["C"%char]) (5, 200000000)]
           (state0 []) eq_refl eq_refl Hall Hfirst Hsorted).
Defined.

Lemma serial_fault_ends_run_witness :
  0 < poll_ret hangup_turn /\
  console_part plain_config 3 hangup_turn (state0 []) = (Next, state0 []) /\
  (Z.land (revents1 hangup_turn) POLLERR <> 0 \/
   Z.land (revents1 hangup_turn) POLLHUP <> 0) /\
  main_loop plain_config 3 [hangup_turn; console_turn] (state0 [])
  = {| result := Exited (-1); calls := [Stderr ("POLLHUP" +:+ nl)] |}.
Proof.
  assert (0 < poll_ret hangup_turn) as Hpoll by (simpl; lia).
  assert (Z.land (revents1 hangup_turn) POLLERR <> 0 \/
          Z.land (revents1 hangup_turn) POLLHUP <> 0) as Hfault
    by (right; discriminate).
  split; [exact Hpoll|]. split; [reflexivity|]. split; [exact Hfault|].
  exact (serial_fault_ends_run plain_config 3 hangup_turn [console_turn]
           (state0 []) (state0 []) Hpoll eq_refl Hfault).
Defined.

Lemma console_eof_ends_run_witness :
  0 < poll_ret eof_and_error_turn /\ console_ready eof_and_error_turn /\
  main_loop plain_config 3 [eof_and_error_turn] (state0 [])
  = {| result := Exited 0; calls := [] |}.
Proof.
  assert (0 < poll_ret eof_and_error_turn) as Hpoll by (simpl; lia).
  assert (console_ready eof_and_error_turn) as Hready
    by (unfold console_ready; vm_compute; discriminate).
  split; [exact Hpoll|]. split; [exact Hready|].
  exact (console_eof_ends_run plain_config 3 eof_and_error_turn []
           (state0 []) Hpoll Hready eq_refl).
Defined.
